(** * redis_cache.utils: address parsing and the self-healing client proxy

    A shallow embedding of [src/redis_cache/utils.py] and the properties
    of its two components: [parse_connection_kwargs] / [get_servers]
    (address parsing) and [MethodProxy] / [ClientProxy] (bounded
    reconnect-and-retry around a client call). *)

From Stdlib Require Import ZArith Ascii String List Lia.
From stdpp Require Import base option gmap strings list fin_maps.

Local Open Scope string_scope.
Local Open Scope Z_scope.

(** ** Python values and exceptions *)

(** The Python values that occur in the keyword dictionaries handled by
    the parser.  [VClass] is a class object such as
    [redis.connection.SSLConnection], identified by its name. *)
Inductive value : Type :=
| VNone
| VInt (z : Z)
| VStr (s : string)
| VClass (name : string).

Global Instance value_eq_dec : EqDecision value.
Proof. solve_decision. Defined.

(** A Python [dict] with string keys. *)
Abbreviation dict := (gmap string value).

(** Exceptions raised while parsing. *)
Inductive exn : Type :=
| ImproperlyConfigured (msg : string)
| ValueError (msg : string)
| TypeError (msg : string).

Inductive result (A : Type) : Type :=
| Ok (a : A)
| Raise (e : exn).
Arguments Ok {A} a.
Arguments Raise {A} e.

Definition rbind {A B} (r : result A) (k : A -> result B) : result B :=
  match r with
  | Ok a => k a
  | Raise e => Raise e
  end.

Definition rmap {A B} (f : A -> B) (r : result A) : result B :=
  match r with
  | Ok a => Ok (f a)
  | Raise e => Raise e
  end.

(** Exceptions of a failed conversion, as opposed to the configuration
    error [ImproperlyConfigured]. *)
Definition conversion_error (e : exn) : Prop :=
  match e with
  | ImproperlyConfigured _ => False
  | ValueError _ | TypeError _ => True
  end.

(** ** Python built-ins used by the module *)

Module Py.

(** Truth value of an object, as used by [or], [and] and [not]. *)
Definition truthy (v : value) : bool :=
  match v with
  | VNone => false
  | VInt z => negb (z =? 0)
  | VStr s => negb (String.eqb s "")
  | VClass _ => true
  end.

(** [a or b] *)
Definition or (a b : value) : value := if truthy a then a else b.

(** [sub in s] for strings. *)
Fixpoint contains (sub s : string) : bool :=
  String.prefix sub s ||
  match s with
  | EmptyString => false
  | String _ s' => contains sub s'
  end.

(** [s.partition(c)] for a one-character separator: the text before
    and after the first [c], or [None] when [c] does not occur. *)
Fixpoint partition (c : ascii) (s : string) : option (string * string) :=
  match s with
  | EmptyString => None
  | String a s' =>
      if Ascii.eqb a c then Some (EmptyString, s')
      else match partition c s' with
           | Some (h, t) => Some (String a h, t)
           | None => None
           end
  end.

(** [s.rpartition(c)]: as [partition], at the last occurrence. *)
Fixpoint rpartition (c : ascii) (s : string) : option (string * string) :=
  match s with
  | EmptyString => None
  | String a s' =>
      match rpartition c s' with
      | Some (h, t) => Some (String a h, t)
      | None => if Ascii.eqb a c then Some (EmptyString, s') else None
      end
  end.

(** [s.split(c)] as a first field and the list of the others. *)
Fixpoint split_fields (c : ascii) (s : string) : string * list string :=
  match s with
  | EmptyString => (EmptyString, [])
  | String a s' =>
      let (h, t) := split_fields c s' in
      if Ascii.eqb a c then (EmptyString, h :: t) else (String a h, t)
  end.

(** [s.split(c)] *)
Definition split (c : ascii) (s : string) : list string :=
  let (h, t) := split_fields c s in h :: t.

(** [c.join(l)] *)
Fixpoint join (c : ascii) (l : list string) : string :=
  match l with
  | [] => EmptyString
  | [x] => x
  | x :: rest => x ++ String c (join c rest)
  end.

(** [s.count(c)] *)
Fixpoint count (c : ascii) (s : string) : nat :=
  match s with
  | EmptyString => O
  | String a s' => if Ascii.eqb a c then S (count c s') else count c s'
  end.

(** [s.replace(c, '')] *)
Fixpoint remove (c : ascii) (s : string) : string :=
  match s with
  | EmptyString => EmptyString
  | String a s' => if Ascii.eqb a c then remove c s' else String a (remove c s')
  end.

(** [s.replace(c, d)] for single characters. *)
Fixpoint replace (c d : ascii) (s : string) : string :=
  match s with
  | EmptyString => EmptyString
  | String a s' => String (if Ascii.eqb a c then d else a) (replace c d s')
  end.

Definition all_chars (p : ascii -> bool) (s : string) : bool :=
  forallb p (list_ascii_of_string s).

Definition code (a : ascii) : nat := nat_of_ascii a.

Definition between (lo hi : nat) (a : ascii) : bool :=
  (Nat.leb lo (code a) && Nat.leb (code a) hi)%bool.

Definition is_digit : ascii -> bool := between 48 57.
Definition is_upper : ascii -> bool := between 65 90.
Definition is_lower : ascii -> bool := between 97 122.

(** ASCII white space, as stripped by [int] and [str.strip]. *)
Definition is_space (a : ascii) : bool :=
  (between 9 13 a || Nat.eqb (code a) 32)%bool.

Definition lower_char (a : ascii) : ascii :=
  if is_upper a then ascii_of_nat (code a + 32) else a.

(** [s.lower()] on ASCII text. *)
Fixpoint lower (s : string) : string :=
  match s with
  | EmptyString => EmptyString
  | String a s' => String (lower_char a) (lower s')
  end.

Fixpoint lstrip (s : string) : string :=
  match s with
  | EmptyString => EmptyString
  | String a s' => if is_space a then lstrip s' else s
  end.

Fixpoint rstrip (s : string) : string :=
  match s with
  | EmptyString => EmptyString
  | String a s' =>
      match rstrip s' with
      | EmptyString => if is_space a then EmptyString else String a EmptyString
      | r => String a r
      end
  end.

Definition strip (s : string) : string := rstrip (lstrip s).

(** The value of a run of decimal digits, [None] on any other
    character. *)
Fixpoint digits (s : string) (acc : Z) : option Z :=
  match s with
  | EmptyString => Some acc
  | String a s' =>
      if is_digit a then digits s' (10 * acc + Z.of_nat (code a - 48))
      else None
  end.

(** [int(s)] for a string, base 10: surrounding white space, an
    optional sign and at least one decimal digit.  ([None] stands for
    [ValueError].  Digit-group underscores of Python 3.6 and
    non-ASCII digits are not accepted by this model.) *)
Definition int_of_string (s : string) : option Z :=
  let t := strip s in
  let '(neg, body) :=
    match t with
    | String "-" r => (true, r)
    | String "+" r => (false, r)
    | _ => (false, t)
    end in
  match body with
  | EmptyString => None
  | _ => (fun z => if neg : bool then - z else z) <$> digits body 0
  end.

(** [int(v)] *)
Definition int (v : value) : result Z :=
  match v with
  | VInt z => Ok z
  | VStr s =>
      match int_of_string s with
      | Some z => Ok z
      | None => Raise (ValueError "invalid literal for int() with base 10")
      end
  | VNone | VClass _ =>
      Raise (TypeError "int() argument must be a string or a number")
  end.

(** [s[:-n]] for [n > 0]. *)
Definition drop_last (n : nat) (s : string) : string :=
  String.substring 0 (String.length s - n) s.

End Py.

(** ** [urllib.parse]: [urlparse] and [parse_qs]

    The standard-library functions the parser is built on, following
    CPython's [urllib/parse.py] (the 2.7 and 3.x releases the module's
    [six] imports target).  Text is a string of bytes; [unquote] decodes
    [%XX] escapes to bytes and does not replace invalid UTF-8. *)

Module Urllib.

Record ParseResult : Type := {
  scheme : string;
  netloc : string;
  path : string;
  query : string;
  fragment : string
}.

Definition scheme_char (a : ascii) : bool :=
  (Py.is_lower a || Py.is_upper a || Py.is_digit a
   || Ascii.eqb a "+" || Ascii.eqb a "-" || Ascii.eqb a ".")%bool.

(** Schemes whose last path segment may carry [;parameters]. *)
Definition uses_params : list string :=
  [""; "ftp"; "hdl"; "prospero"; "http"; "imap"; "https"; "shttp";
   "rtsp"; "rtspu"; "sip"; "sips"; "mms"; "sftp"; "tel"].

(** The longest prefix without a character satisfying [stop], and
    the rest. *)
Fixpoint span_until (stop : ascii -> bool) (s : string) : string * string :=
  match s with
  | EmptyString => (EmptyString, EmptyString)
  | String a s' =>
      if stop a then (EmptyString, s)
      else let (h, t) := span_until stop s' in (String a h, t)
  end.

(** [_splitnetloc(url, 2)] on the text after the leading [//]. *)
Definition splitnetloc (after_slashes : string) : string * string :=
  span_until
    (fun a => (Ascii.eqb a "/" || Ascii.eqb a "?" || Ascii.eqb a "#")%bool)
    after_slashes.

(** [_splitparams(url)], called only when [';' in url]. *)
Definition splitparams (url : string) : string * string :=
  match Py.rpartition "/" url with
  | Some (dir, last) =>
      match Py.partition ";" last with
      | Some (seg, params) => (dir ++ String "/" seg, params)
      | None => (url, EmptyString)
      end
  | None =>
      match Py.partition ";" url with
      | Some (seg, params) => (seg, params)
      | None => (url, EmptyString)
      end
  end.

(** [urlparse(url)]: scheme, network location, fragment and query are
    split off in that order; the remainder is the path. *)
Definition urlparse (url : string) : result ParseResult :=
  let '(sch, url1) :=
    match Py.partition ":" url with
    | Some (pre, post) =>
        if (negb (String.eqb pre "") && Py.all_chars scheme_char pre)%bool
        then (Py.lower pre, post)
        else (EmptyString, url)
    | None => (EmptyString, url)
    end in
  let '(loc, url2) :=
    match url1 with
    | String "/" (String "/" rest) => splitnetloc rest
    | _ => (EmptyString, url1)
    end in
  if (xorb (Py.contains "[" loc) (Py.contains "]" loc)) then
    Raise (ValueError "Invalid IPv6 URL")
  else
    let '(url3, frag) :=
      match Py.partition "#" url2 with
      | Some (h, t) => (h, t)
      | None => (url2, EmptyString)
      end in
    let '(url4, qry) :=
      match Py.partition "?" url3 with
      | Some (h, t) => (h, t)
      | None => (url3, EmptyString)
      end in
    let url5 :=
      if (bool_decide (sch ∈ uses_params) && Py.contains ";" url4)%bool
      then fst (splitparams url4) else url4 in
    Ok {| scheme := sch; netloc := loc; path := url5;
          query := qry; fragment := frag |}.

(** The [_userinfo] property: user name and password. *)
Definition userinfo (u : ParseResult) : option string * option string :=
  match Py.rpartition "@" (netloc u) with
  | Some (info, _) =>
      match Py.partition ":" info with
      | Some (user, pw) => (Some user, Some pw)
      | None => (Some info, None)
      end
  | None => (None, None)
  end.

(** The [_hostinfo] property: host text and port text. *)
Definition hostinfo (u : ParseResult) : string * option string :=
  let hostpart :=
    match Py.rpartition "@" (netloc u) with
    | Some (_, h) => h
    | None => netloc u
    end in
  let '(host, port) :=
    match Py.partition "[" hostpart with
    | Some (_, bracketed) =>
        match Py.partition "]" bracketed with
        | Some (h, after) =>
            (h, match Py.partition ":" after with
                | Some (_, p) => p
                | None => EmptyString
                end)
        | None => (bracketed, EmptyString)
        end
    | None =>
        match Py.partition ":" hostpart with
        | Some (h, p) => (h, p)
        | None => (hostpart, EmptyString)
        end
    end in
  (host, if String.eqb port "" then None else Some port).

(** [url.password] *)
Definition password (u : ParseResult) : value :=
  match snd (userinfo u) with
  | Some pw => VStr pw
  | None => VNone
  end.

(** [url.hostname]: lower-cased up to an IPv6 zone, [None] when
    empty. *)
Definition hostname (u : ParseResult) : value :=
  let host := fst (hostinfo u) in
  if String.eqb host "" then VNone
  else match Py.partition "%" host with
       | Some (h, zone) => VStr (Py.lower h ++ String "%" zone)
       | None => VStr (Py.lower host)
       end.

(** [url.port]: [None] when absent, [ValueError] when it is not a
    number in [0 .. 65535]. *)
Definition port (u : ParseResult) : result value :=
  match snd (hostinfo u) with
  | None => Ok VNone
  | Some p =>
      match Py.int_of_string p with
      | Some n =>
          if ((0 <=? n) && (n <=? 65535))%bool then Ok (VInt n)
          else Raise (ValueError "Port out of range 0-65535")
      | None => Raise (ValueError "invalid literal for int() with base 10")
      end
  end.

Definition hex_value (a : ascii) : option nat :=
  if Py.is_digit a then Some (Py.code a - 48)%nat
  else if Py.between 65 70 a then Some (Py.code a - 55)%nat
  else if Py.between 97 102 a then Some (Py.code a - 87)%nat
  else None.

(** [unquote(s)]: every [%XX] with two hexadecimal digits becomes the
    byte [XX]; any other [%] is kept. *)
Fixpoint unquote (s : string) : string :=
  match s with
  | EmptyString => EmptyString
  | String a s' =>
      if Ascii.eqb a "%" then
        match s' with
        | String h (String l r) =>
            match hex_value h, hex_value l with
            | Some x, Some y => String (ascii_of_nat (16 * x + y)) (unquote r)
            | _, _ => String a (unquote s')
            end
        | _ => String a (unquote s')
        end
      else String a (unquote s')
  end.

(** [parse_qsl(qs)]: the [name=value] fields separated by [&] or [;],
    skipping fields without [=] and fields with a blank value. *)
Definition parse_qsl (qs : string) : list (string * string) :=
  let fields := concat (map (Py.split ";") (Py.split "&" qs)) in
  omap
    (fun name_value =>
       match Py.partition "=" name_value with
       | Some (n, v) =>
           if String.eqb v "" then None
           else Some (unquote (Py.replace "+" " " n),
                      unquote (Py.replace "+" " " v))
       | None => None
       end)
    fields.

(** [parse_qs(qs)]: every name with the list of its values in order
    of appearance. *)
Definition parse_qs (qs : string) : gmap string (list string) :=
  fold_left
    (fun (parsed : gmap string (list string)) (nv : string * string) =>
       let (name, v) := nv in
       match parsed !! name with
       | Some vs => <[name := (vs ++ [v])%list]> parsed
       | None => <[name := [v]]> parsed
       end)
    (parse_qsl qs) ∅.

End Urllib.

(** ** Address parsing: [get_servers] and [parse_connection_kwargs] *)

Module Parser.
Import Urllib.

(** What Django hands over as [LOCATION]: a string, an iterable of
    strings, or any other object. *)
Inductive location : Type :=
| LString (s : string)
| LIterable (servers : list string)
| LOther.

(** A name between double quotes, as the messages of the module
    write it. *)
Definition quoted (s : string) : string :=
  String (ascii_of_nat 34) (s ++ String (ascii_of_nat 34) EmptyString).

(** The text of the deprecation warnings (lines 132 to 137): the old
    name, quoted, is deprecated; use the new name, quoted, instead. *)
Definition deprecated (old new : string) : string :=
  quoted old ++ " is deprecated. Use " ++ quoted new ++ " instead".

Definition get_servers (loc : location) : result (list string) :=
  match loc with
  | LString s => Ok (Py.split "," s)
  | LIterable servers => Ok servers
  | LOther => Raise (ImproperlyConfigured (quoted "server" ++ " must be an iterable or string"))
  end.

(** [warnings.warn]: the warnings emitted so far are threaded through
    the parser as state, next to the exception a step may raise. *)
Inductive warning : Type :=
| DeprecationWarning (msg : string).

Definition M (A : Type) : Type := list warning -> list warning * result A.

Definition ret {A} (a : A) : M A := fun ws => (ws, Ok a).
Definition throw {A} (e : exn) : M A := fun ws => (ws, Raise e).
Definition lift {A} (r : result A) : M A := fun ws => (ws, r).
Definition warn (w : warning) : M unit := fun ws => ((ws ++ [w])%list, Ok tt).
Definition bind {A B} (m : M A) (k : A -> M B) : M B :=
  fun ws =>
    match m ws with
    | (ws', Ok a) => k a ws'
    | (ws', Raise e) => (ws', Raise e)
    end.

Notation "'letm' x := m 'in' k" := (bind m (fun x => k))
  (at level 10, x name, m at level 200, k at level 200).
Notation "'letr' x := r 'in' k" := (rbind r (fun x => k))
  (at level 10, x name, r at level 200, k at level 200).

Definition SSLConnection : value := VClass "redis.connection.SSLConnection".

(** [repr] of a string without quotes, backslashes or control
    characters. *)
Definition repr (s : string) : string := "'" ++ s ++ "'".

(** Lines 78 to 91: parse the URL and find its query string, cutting
    the query off and parsing again when [urlparse] left it in the
    path. *)
Definition split_query (url_string : string) : result (ParseResult * string) :=
  letr url := urlparse url_string in
  if (Py.contains "?" (path url) && negb (Py.truthy (VStr (query url))))%bool then
    match Py.partition "?" (path url) with
    | Some (_, qs) =>
        letr url' := urlparse (Py.drop_last (String.length qs + 1) url_string) in
        Ok (url', qs)
    | None => Raise (ValueError "list index out of range")
    end
  else Ok (url, query url).

(** Lines 93 to 97: the first value of every query-string name. *)
Definition query_options (qs : string) : dict :=
  omap (fun vs : list string =>
          match vs with
          | v :: _ => Some (VStr v)
          | [] => None
          end)
       (parse_qs qs).

(** Lines 99 to 125: the options a parsed URL stands for. *)
Definition url_options (url : ParseResult) (qs : string) (db : value) : result dict :=
  let opts := query_options qs in
  letr opts :=
    (if String.eqb (scheme url) "unix" then
       Ok (<["unix_socket_path" := VStr (path url)]>
             (<["password" := password url]> opts))
     else
       let host := hostname url in
       letr p := port url in
       letr n := Py.int (Py.or p (VInt 6379)) in
       let opts :=
         <["password" := password url]>
           (<["port" := VInt n]> (<["host" := host]> opts)) in
       letr opts :=
         (if (negb (bool_decide (is_Some (opts !! "db")))
              && Py.truthy (VStr (path url)))%bool then
            match Py.int (VStr (Py.remove "/" (path url))) with
            | Ok d => Ok (<["db" := VInt d]> opts)
            | Raise (ValueError _) => Ok opts
            | Raise e => Raise e
            end
          else Ok opts) in
       Ok (if String.eqb (scheme url) "rediss"
           then <["connection_class" := SSLConnection]> opts
           else opts)) in
  letr d := Py.int (default (Py.or db (VInt 0)) (opts !! "db")) in
  Ok (<["db" := VInt d]> opts).

(** Lines 130 to 138: [kwargs[new] = kwargs.pop(old)] with a
    deprecation warning, when [old] is present. *)
Definition rename_deprecated (old new msg : string) (kwargs : dict) : M dict :=
  match kwargs !! old with
  | Some v =>
      letm _u := warn (DeprecationWarning msg) in
      ret (<[new := v]> (delete old kwargs))
  | None => ret kwargs
  end.

(** Lines 93 to 138: the branch for a server with a scheme. *)
Definition url_form (url : ParseResult) (qs : string) (db : value)
    (kwargs : dict) : M dict :=
  letm opts := lift (url_options url qs db) in
  let kwargs := opts ∪ kwargs in
  letm kwargs := rename_deprecated "charset" "encoding"
              (deprecated "charset" "encoding") kwargs in
  rename_deprecated "errors" "encoding_errors"
    (deprecated "errors" "encoding_errors") kwargs.

(** Lines 140 to 161: the branch for [host:port] and for a bare socket
    path. *)
Definition plain_form (server : string) (db : value) (kwargs : dict) : result dict :=
  letr hpu :=
    (if Py.contains ":" server then
       match Py.rpartition ":" server with
       | Some (host, port) =>
           match Py.int (VStr port) with
           | Ok n => Ok (VStr host, VInt n, VNone)
           | Raise _ =>
               Raise (ImproperlyConfigured
                        (repr port ++ " from " ++ server ++ " must be an integer"))
           end
       | None => Raise (ValueError "not enough values to unpack")
       end
     else Ok (VNone, VNone, VStr server)) in
  let '(host, port, unix_socket_path) := hpu in
  Ok (<["db" := db]>
        (<["unix_socket_path" := unix_socket_path]>
           (<["port" := port]> (<["host" := host]> kwargs)))).

(** [parse_connection_kwargs(server, db=None, **kwargs)]; [db = VNone]
    is the call without a default database. *)
Definition parse_connection_kwargs (server : string) (db : value)
    (kwargs : dict) : M dict :=
  let kwargs := <["unix_socket_path" := VStr ""]> kwargs in
  if Py.contains "://" server then
    letm uq := lift (split_query server) in
    url_form (fst uq) (snd uq) db kwargs
  else lift (plain_form server db kwargs).

End Parser.

(** ** The self-healing proxy: [ClientProxy] and [MethodProxy] *)

Module Proxy.

(** What a call on the underlying redis client does: return a value,
    raise [redis.ConnectionError] (or a subclass), or raise anything
    else. *)
Inductive error : Type :=
| ConnectionError (msg : string)
| OtherError (class msg : string).

Inductive outcome : Type :=
| Returns (v : value)
| Raises (e : error).

(** Modelled from the spec: the connection identifier of
    [redis_cache.connection], which is not part of the sources at
    hand; the spec only says that it is derived from the connection
    and pool parameters, so any countable name will do. *)
Definition identifier : Type := string.

(** A client object: its identity, the identifier its pool was
    registered under and the pool bound to it. *)
Record client : Type := {
  client_id : nat;
  connection_identifier : identifier;
  connection_pool : nat
}.

(** A [MethodProxy] object; its [client_proxy] field always points to
    the one [ClientProxy] of the [world]. *)
Record MethodProxy : Type := {
  mp_client : client;
  method_attr : string
}.

Inductive event : Type :=
| Invoked (c : nat) (attr : string)
| Evicted (i : identifier)
| Created (c : nat).

(** The objects a proxied call reads and writes: the process-wide pool
    registry [pool._connection_pools], the [ClientProxy] with its
    fixed connection parameters (through their identifier), its
    current [client] and its [_method_cache], the counters for fresh
    objects, and a record of what happened. *)
Record world : Type := {
  connection_pools : gmap identifier nat;
  target : identifier;
  proxy_client : client;
  method_cache : gmap string MethodProxy;
  objects : nat;
  invocations : nat;
  trace : list event
}.

Definition max_call_count : nat := 3.

(** Modelled from the spec: [get_connection_identifier_from_client] of
    [redis_cache.connection]; the identifier the registry used when
    the client was created. *)
Definition get_connection_identifier_from_client (c : client) : identifier :=
  connection_identifier c.

(** Modelled from the spec: [pool.get_connection_pool] of
    [redis_cache.connection]; the pool registered under the
    identifier, a new one being registered when there is none. *)
Definition get_connection_pool (i : identifier) (w : world) : nat * world :=
  match connection_pools w !! i with
  | Some p => (p, w)
  | None =>
      let p := objects w in
      (p, {| connection_pools := <[i := p]> (connection_pools w);
             target := target w;
             proxy_client := proxy_client w;
             method_cache := method_cache w;
             objects := S (objects w);
             invocations := invocations w;
             trace := trace w |})
  end.

(** [ClientProxy.create_client]: a new client object bound to the
    pool of the proxy's connection parameters. *)
Definition create_client (w : world) : client * world :=
  let cid := objects w in
  let w1 := {| connection_pools := connection_pools w;
               target := target w;
               proxy_client := proxy_client w;
               method_cache := method_cache w;
               objects := S (objects w);
               invocations := invocations w;
               trace := trace w |} in
  let (p, w2) := get_connection_pool (target w1) w1 in
  ({| client_id := cid; connection_identifier := target w1; connection_pool := p |},
   {| connection_pools := connection_pools w2;
      target := target w2;
      proxy_client := proxy_client w2;
      method_cache := method_cache w2;
      objects := objects w2;
      invocations := invocations w2;
      trace := (trace w2 ++ [Created cid])%list |}).

(** [del pool._connection_pools[i]], a [KeyError] being ignored. *)
Definition evict (i : identifier) (w : world) : world :=
  {| connection_pools :=
       match connection_pools w !! i with
       | Some _ => delete i (connection_pools w)
       | None => connection_pools w
       end;
     target := target w;
     proxy_client := proxy_client w;
     method_cache := method_cache w;
     objects := objects w;
     invocations := invocations w;
     trace := (trace w ++ [Evicted i])%list |}.

(** [self.client_proxy.client = c] *)
Definition set_proxy_client (c : client) (w : world) : world :=
  {| connection_pools := connection_pools w;
     target := target w;
     proxy_client := c;
     method_cache := method_cache w;
     objects := objects w;
     invocations := invocations w;
     trace := trace w |}.

(** [self._method_cache[attr] = g] *)
Definition set_method (attr : string) (g : MethodProxy) (w : world) : world :=
  {| connection_pools := connection_pools w;
     target := target w;
     proxy_client := proxy_client w;
     method_cache := <[attr := g]> (method_cache w);
     objects := objects w;
     invocations := invocations w;
     trace := trace w |}.

(** One more call on the underlying client has been made. *)
Definition invoked (c : client) (attr : string) (w : world) : world :=
  {| connection_pools := connection_pools w;
     target := target w;
     proxy_client := proxy_client w;
     method_cache := method_cache w;
     objects := objects w;
     invocations := S (invocations w);
     trace := (trace w ++ [Invoked (client_id c) attr])%list |}.

Definition is_eviction (e : event) : bool :=
  match e with Evicted _ => true | _ => false end.

Definition is_creation (e : event) : bool :=
  match e with Created _ => true | _ => false end.

Definition is_invocation (e : event) : bool :=
  match e with Invoked _ _ => true | _ => false end.

(** How many events of a kind a trace holds. *)
Definition occurrences (kind : event -> bool) (t : list event) : nat :=
  length (List.filter kind t).

Section Client.

(** The arguments of a call, passed on untouched. *)
Variable Args : Type.

(** The underlying client: what the [n]-th call made on it so far
    (counting from 0) does, given the client object, the method
    name and the arguments. *)
Variable respond : nat -> client -> string -> Args -> outcome.

(** [callable(getattr(client, attr))] and, for the other attributes,
    [getattr(client, attr)]. *)
Variable callable : string -> bool.
Variable attribute : client -> string -> value.

(** [MethodProxy._call(self, call_count, *args, **kwargs)].  The
    recursion is bounded by [fuel]; [None] is a run that needs
    more. *)
Fixpoint _call (fuel : nat) (self : MethodProxy) (call_count : nat)
    (a : Args) (w : world) : option (MethodProxy * world * outcome) :=
  match fuel with
  | O => None
  | S fuel' =>
      let w1 := invoked (mp_client self) (method_attr self) w in
      match respond (invocations w) (mp_client self) (method_attr self) a with
      | Returns v => Some (self, w1, Returns v)
      | Raises (ConnectionError msg) =>
          if Nat.eqb call_count max_call_count then
            Some (self, w1, Raises (ConnectionError msg))
          else
            let i := get_connection_identifier_from_client (mp_client self) in
            let w2 := evict i w1 in
            let (c, w3) := create_client w2 in
            let self' := {| mp_client := c; method_attr := method_attr self |} in
            let w4 := set_proxy_client c w3 in
            match _call fuel' self' (call_count + 1) a w4 with
            | Some (s, w5, Raises e) => Some (s, w5, Raises e)
            | Some (s, w5, Returns _) => Some (s, w5, Returns VNone)
            | None => None
            end
      | Raises e => Some (self, w1, Raises e)
      end
  end.

(** [MethodProxy.__call__(self, *args, **kwargs)] on the guard cached
    under [key]; the guard object is written back with the client
    it ended on. *)
Definition __call__ (fuel : nat) (key : string) (a : Args) (w : world)
    : option (world * outcome) :=
  match method_cache w !! key with
  | Some self =>
      match _call fuel self 1 a w with
      | Some (self', w', r) => Some (set_method key self' w', r)
      | None => None
      end
  | None => None
  end.

(** What member access on the proxy gives: a guard (by its cache
    key) or a plain attribute value. *)
Inductive member : Type :=
| Method (key : string)
| Attribute (v : value).

(** [ClientProxy.__getattr__(self, attr)] *)
Definition __getattr__ (attr : string) (w : world) : member * world :=
  if callable attr then
    match method_cache w !! attr with
    | Some _ => (Method attr, w)
    | None =>
        (Method attr,
         set_method attr {| mp_client := proxy_client w; method_attr := attr |} w)
    end
  else (Attribute (attribute (proxy_client w) attr), w).

End Client.

(** [ClientProxy.__init__]: the first client is created at once and
    the method cache starts empty.  (The class attribute [client = None]
    is a placeholder here, overwritten before anything can read it.) *)
Definition init (pools : gmap identifier nat) (fresh : nat) (i : identifier) : world :=
  let w0 := {| connection_pools := pools;
               target := i;
               proxy_client := {| client_id := 0; connection_identifier := i;
                                  connection_pool := 0 |};
               method_cache := ∅;
               objects := fresh;
               invocations := 0;
               trace := [] |} in
  let (c, w1) := create_client w0 in
  set_proxy_client c w1.

End Proxy.

(** ** Sample clients and worlds

    Concrete inputs on which the theorems below are exercised. *)

Module Sample.
Import Proxy.

(** A client whose [n]-th call follows a script, whatever the client
    object, the method and the arguments; [Returns VNone] once the
    script is over. *)
Definition scripted (script : list outcome)
    : nat -> client -> string -> list value -> outcome :=
  fun n _ _ _ => nth n script (Returns VNone).

(** A proxy for the server [redis-a], created in an empty
    registry. *)
Definition fresh_proxy : world := init ∅ 0 "redis-a".

(** The same proxy after its [ping], [get] and [set] methods have
    been looked up once. *)
Definition proxy_in_use : world :=
  let all_callable := fun _ : string => true in
  let no_attribute := fun (_ : client) (_ : string) => VNone in
  let w1 := snd (__getattr__ all_callable no_attribute "ping" fresh_proxy) in
  let w2 := snd (__getattr__ all_callable no_attribute "get" w1) in
  snd (__getattr__ all_callable no_attribute "set" w2).

(** The guard cached for [ping], [get] and [set] in [proxy_in_use]. *)
Definition guard_of (attr : string) : MethodProxy :=
  {| mp_client := {| client_id := 0; connection_identifier := "redis-a";
                     connection_pool := 1 |};
     method_attr := attr |}.

(** What a run shows from outside: the trace, the identity of the
    proxy's current client and the outcome. *)
Definition observed (run : option (world * outcome))
    : option (list event * nat * outcome) :=
  match run with
  | Some (w, r) => Some (trace w, client_id (proxy_client w), r)
  | None => None
  end.

Definition lost : outcome := Raises (ConnectionError "connection lost").
Definition reset : outcome := Raises (ConnectionError "connection reset by peer").
Definition refused : outcome := Raises (ConnectionError "connection refused").
Definition wrong_type : outcome :=
  Raises (OtherError "ResponseError" "WRONGTYPE Operation against a key").
Definition pong : outcome := Returns (VStr "PONG").

(** [urlparse("http://example.com:8080/1")] *)
Definition http_url : Urllib.ParseResult :=
  {| Urllib.scheme := "http"; Urllib.netloc := "example.com:8080";
     Urllib.path := "/1"; Urllib.query := ""; Urllib.fragment := "" |}.

(** [urlparse("redis://localhost/7")] *)
Definition redis_url : Urllib.ParseResult :=
  {| Urllib.scheme := "redis"; Urllib.netloc := "localhost";
     Urllib.path := "/7"; Urllib.query := ""; Urllib.fragment := "" |}.

(** The parameters [redis://localhost] stands for. *)
Definition localhost_parameters : dict :=
  <["host" := VStr "localhost"]> (<["port" := VInt 6379]>
    (<["password" := VNone]> (<["db" := VInt 0]>
    (<["unix_socket_path" := VStr ""]> ∅)))).

End Sample.

(** ** The database precedence rule, in the spec's words *)

Module Rule.

(** Follows the spec's words (component design, address parser, step 3)
    rather than the code: the explicit [db] query parameter if there is
    one, else the numeric path segment if there is one, else the
    caller's default database, else 0. *)
Definition database_by_precedence (query_db : option value)
    (path_db : option Z) (default_db : option Z) : result Z :=
  match query_db, path_db, default_db with
  | Some v, _, _ => Py.int v
  | None, Some n, _ => Ok n
  | None, None, Some d => Ok d
  | None, None, None => Ok 0
  end.

(** The number a path stands for once its slashes are dropped, if it
    is one. *)
Definition path_number (path : string) : option Z :=
  Py.int_of_string (Py.remove "/" path).

(** The caller's optional default as the [db] argument. *)
Definition db_argument (default_db : option Z) : value :=
  match default_db with
  | Some d => VInt d
  | None => VNone
  end.

(** The [db] entry of a parse, or the exception the parse raised. *)
Definition database_of (run : list Parser.warning * result dict)
    : result (option value) :=
  match snd run with
  | Ok p => Ok (p !! "db")
  | Raise e => Raise e
  end.

(** The [port] entry of a successful parse. *)
Definition port_of (run : list Parser.warning * result dict) : option value :=
  match snd run with
  | Ok p => p !! "port"
  | Raise _ => None
  end.

(** The same parsed URL under another scheme. *)
Definition with_scheme (s : string) (u : Urllib.ParseResult) : Urllib.ParseResult :=
  {| Urllib.scheme := s; Urllib.netloc := Urllib.netloc u;
     Urllib.path := Urllib.path u; Urllib.query := Urllib.query u;
     Urllib.fragment := Urllib.fragment u |}.

End Rule.

(** ** [import_class] *)

Module Importer.

(** What [importlib.import_module] does with a module name: it gives the
    module (its attributes by name), raises [ImportError], or raises
    something else, which [import_class] does not catch. *)
Inductive import_outcome : Type :=
| Imported (attributes : gmap string value)
| ImportError
| ImportRaises (e : exn).

(** The double quote of the two messages. *)
Definition dquote : string := String (ascii_of_nat 34) EmptyString.

Section Loading.

Variable import_module : string -> import_outcome.

(** [import_class(path)]: [path.rsplit('.', 1)] must give two parts,
    the module to import and the attribute to read from it. *)
Definition import_class (path : string) : result value :=
  match Py.rpartition "." path with
  | Some (module_name, class_name) =>
      match import_module module_name with
      | Imported attributes =>
          match attributes !! class_name with
          | Some v => Ok v
          | None =>
              Raise (ImproperlyConfigured
                       ("Cannot import " ++ dquote ++ class_name ++ dquote))
          end
      | ImportError =>
          Raise (ImproperlyConfigured
                   ("Could not find module " ++ dquote ++ module_name ++ dquote))
      | ImportRaises e => Raise e
      end
  | None => Raise (ValueError "not enough values to unpack")
  end.

End Loading.

End Importer.

(** ** The worlds a proxy can be in *)

Module Run.
Import Proxy.

Section Steps.

Variable Args : Type.
Variable respond : nat -> client -> string -> Args -> outcome.
Variable callable : string -> bool.
Variable attribute : client -> string -> value.

(** The worlds reached from the construction of a proxy by member
    accesses and guarded calls, in any order. *)
Inductive reachable : world -> Prop :=
| reach_init pools fresh i :
    reachable (init pools fresh i)
| reach_getattr w attr :
    reachable w ->
    reachable (snd (__getattr__ callable attribute attr w))
| reach_call w fuel key a w' r :
    reachable w ->
    __call__ Args respond fuel key a w = Some (w', r) ->
    reachable w'.

End Steps.

End Run.

(** ** Sample addresses *)

Module SampleParse.

(** A TLS address with a password, a port, a path, query options and
    a deprecated alias, and the options a caller adds to it. *)
Definition tls_server : string :=
  "rediss://:pw@Cache.Example:6380/2?db=5&charset=latin1&socket_timeout=3&db=7".

Definition caller_options : dict :=
  <["socket_timeout" := VInt 9]> (<["errors" := VStr "strict"]>
    (<["host" := VStr "elsewhere"]> (<["retry" := VInt 1]> ∅))).

(** A socket address. *)
Definition unix_server : string := "unix://:secret@/tmp/redis.sock?db=3".

(** The URL [urlparse] makes of a server, for the servers above. *)
Definition url_of (server : string) : Urllib.ParseResult :=
  match Urllib.urlparse server with
  | Ok u => u
  | Raise _ =>
      {| Urllib.scheme := ""; Urllib.netloc := ""; Urllib.path := "";
         Urllib.query := ""; Urllib.fragment := "" |}
  end.

(** The warnings and parameters a parse gives, for the servers above. *)
Definition warnings_of (server : string) (db : value) (kwargs : dict)
    : list Parser.warning :=
  fst (Parser.parse_connection_kwargs server db kwargs []).

Definition parameters_of (server : string) (db : value) (kwargs : dict) : dict :=
  match snd (Parser.parse_connection_kwargs server db kwargs []) with
  | Ok p => p
  | Raise _ => ∅
  end.

(** An importer that knows one module. *)
Definition one_module (name : string) : Importer.import_outcome :=
  if String.eqb name "redis.connection"
  then Importer.Imported
         {["SSLConnection" := VClass "redis.connection.SSLConnection"]}
  else Importer.ImportError.

End SampleParse.

(** * Properties of the proxy *)

Module ProxyFacts.
Import Proxy.

Lemma occurrences_app kind (t u : list event) :
  occurrences kind (t ++ u) = (occurrences kind t + occurrences kind u)%nat.
Proof. unfold occurrences. by rewrite List.filter_app, length_app. Qed.

(** [create_client] allocates the next object as the client, binds it
    under the proxy's identifier and touches nothing but the registry,
    the object counter and the trace. *)
Lemma create_client_spec (w : world) :
  ∃ pool pools objs,
    create_client w =
      ({| client_id := objects w; connection_identifier := target w;
          connection_pool := pool |},
       {| connection_pools := pools;
          target := target w;
          proxy_client := proxy_client w;
          method_cache := method_cache w;
          objects := objs;
          invocations := invocations w;
          trace := trace w ++ [Created (objects w)] |}).
Proof.
  unfold create_client, get_connection_pool; cbn.
  destruct (connection_pools w !! target w); cbn; eauto.
Qed.

(** One eviction and recreation: the identifier leaves the registry,
    the next object becomes a client under the proxy's identifier, and
    the registry ends with that client's pool under this identifier.
    After the eviction of the proxy's own identifier the pool is a new
    object too. *)
Lemma recreate_spec (i : identifier) (w : world) :
  ∃ c w3,
    create_client (evict i w) = (c, w3) ∧
    client_id c = objects w ∧
    connection_identifier c = target w ∧
    target w3 = target w ∧
    proxy_client w3 = proxy_client w ∧
    method_cache w3 = method_cache w ∧
    invocations w3 = invocations w ∧
    trace w3 = (trace w ++ [Evicted i; Created (objects w)])%list ∧
    (objects w < objects w3)%nat ∧
    connection_pools w3 !! target w = Some (connection_pool c) ∧
    delete (target w) (connection_pools w3)
      = delete (target w) (delete i (connection_pools w)) ∧
    (i = target w →
     connection_pool c = S (objects w) ∧
     objects w3 = S (S (objects w)) ∧
     connection_pools w3
       = <[target w := S (objects w)]> (delete (target w) (connection_pools w))).
Proof.
  unfold create_client, get_connection_pool, evict.
  cbn [target objects connection_pools proxy_client method_cache invocations trace].
  destruct (connection_pools w !! i) eqn:Hi;
    [|rewrite (delete_id _ _ Hi)];
    match goal with
    | |- context [?R !! target w] =>
        destruct (R !! target w) as [p|] eqn:Hp
    end;
    (eexists _, _; split; [reflexivity|]);
    cbn [client_id connection_identifier connection_pool target objects
         connection_pools proxy_client method_cache invocations trace];
    rewrite <- app_assoc;
    (split_and!; try done; try lia; try (by rewrite lookup_insert_eq);
     try (by rewrite delete_insert_eq)).
  all: intros ->.
  - by rewrite lookup_delete_eq in Hp.
  - done.
  - congruence.
  - by rewrite (delete_id _ _ Hi).
Qed.

Section Guard.
Context {Args : Type}.
Variable respond : nat -> client -> string -> Args -> outcome.

(** A result the first attempt produces is the result of the call,
    and nothing but the call itself is recorded. *)
Lemma _call_returns fuel self n a w v :
  respond (invocations w) (mp_client self) (method_attr self) a = Returns v →
  _call Args respond (S fuel) self n a w =
    Some (self, invoked (mp_client self) (method_attr self) w, Returns v).
Proof. intros H; cbn. by rewrite H. Qed.

(** An error that is not a connection error leaves [_call] at
    once. *)
Lemma _call_other_error fuel self n a w cls msg :
  respond (invocations w) (mp_client self) (method_attr self) a
    = Raises (OtherError cls msg) →
  _call Args respond (S fuel) self n a w =
    Some (self, invoked (mp_client self) (method_attr self) w,
          Raises (OtherError cls msg)).
Proof. intros H; cbn. by rewrite H. Qed.

(** A connection error on the last allowed attempt is raised
    again. *)
Lemma _call_exhausted fuel self a w msg :
  respond (invocations w) (mp_client self) (method_attr self) a
    = Raises (ConnectionError msg) →
  _call Args respond (S fuel) self max_call_count a w =
    Some (self, invoked (mp_client self) (method_attr self) w,
          Raises (ConnectionError msg)).
Proof. intros H; cbn. by rewrite H. Qed.

(** A connection error on an earlier attempt: evict, recreate,
    retry; the retry's value is dropped, its error passed on. *)
Lemma _call_retry fuel self n a w msg :
  respond (invocations w) (mp_client self) (method_attr self) a
    = Raises (ConnectionError msg) →
  n ≠ max_call_count →
  ∃ pool pools objs,
    let w1 := invoked (mp_client self) (method_attr self) w in
    let c := {| client_id := objects w; connection_identifier := target w;
                connection_pool := pool |} in
    let w4 := {| connection_pools := pools;
                 target := target w;
                 proxy_client := c;
                 method_cache := method_cache w;
                 objects := objs;
                 invocations := S (invocations w);
                 trace := trace w ++
                   [Invoked (client_id (mp_client self)) (method_attr self);
                    Evicted (connection_identifier (mp_client self));
                    Created (objects w)] |} in
    _call Args respond (S fuel) self n a w =
      match _call Args respond fuel
              {| mp_client := c; method_attr := method_attr self |}
              (n + 1) a w4 with
      | Some (s, w5, Raises e) => Some (s, w5, Raises e)
      | Some (s, w5, Returns _) => Some (s, w5, Returns VNone)
      | None => None
      end.
Proof.
  intros H Hn. cbn [_call]. rewrite H.
  apply Nat.eqb_neq in Hn. rewrite Hn.
  destruct (create_client_spec
              (evict (get_connection_identifier_from_client (mp_client self))
                 (invoked (mp_client self) (method_attr self) w)))
    as (pool & pools & objs & ->).
  exists pool, pools, objs. cbn.
  by rewrite <- !app_assoc.
Qed.

(** The run of a guarded call whose first two attempts meet a
    connection error, up to the outcome of the third attempt: two
    evict-and-recreate cycles, the third attempt on the second new
    client, and a returned value replaced by [None] on the way
    out. *)
Lemma _call_third_attempt extra self a w m1 m2 :
  (∀ c, respond (invocations w) c (method_attr self) a
          = Raises (ConnectionError m1)) →
  (∀ c, respond (S (invocations w)) c (method_attr self) a
          = Raises (ConnectionError m2)) →
  ∃ c2 w2,
    invocations w2 = S (S (invocations w)) ∧
    proxy_client w2 = c2 ∧
    method_cache w2 = method_cache w ∧
    (∃ c1 i1,
       trace w2 =
         (trace w ++
          [Invoked (client_id (mp_client self)) (method_attr self);
           Evicted (connection_identifier (mp_client self)); Created c1;
           Invoked c1 (method_attr self); Evicted i1;
           Created (client_id c2)])%list) ∧
    _call Args respond (max_call_count + extra) self 1 a w =
      match _call Args respond (S extra)
              {| mp_client := c2; method_attr := method_attr self |} 3 a w2 with
      | Some (s, w5, Raises e) => Some (s, w5, Raises e)
      | Some (s, w5, Returns _) => Some (s, w5, Returns VNone)
      | None => None
      end.
Proof.
  intros H1 H2.
  destruct (_call_retry (S (S extra)) self 1 a w m1 (H1 _) ltac:(done))
    as (p1 & ps1 & o1 & E1).
  cbn zeta in E1.
  match type of E1 with
  | _ = match _call _ _ _ ?s1 _ _ ?w1 with _ => _ end =>
      destruct (_call_retry (S extra) s1 2 a w1 m2 (H2 _) ltac:(done))
        as (p2 & ps2 & o2 & E2)
  end.
  cbn zeta in E2.
  cbn [mp_client method_attr objects target trace invocations method_cache
       client_id connection_identifier Nat.add] in E2.
  match type of E2 with
  | _ = match _call _ _ _ ?s2 _ _ ?w2 with _ => _ end =>
      exists (mp_client s2), w2
  end.
  cbn [mp_client method_attr objects target trace invocations method_cache
       proxy_client client_id connection_identifier].
  split_and!; try reflexivity.
  - eexists _, _. by rewrite <- app_assoc.
  - change (max_call_count + extra)%nat with (S (S (S extra))).
    rewrite E1. cbn [Nat.add]. rewrite E2.
    by destruct (_call Args respond (S extra) _ _ _ _) as [[[s w5] [v|e]]|].
Qed.

(** Started at an attempt number within the limit, with one unit
    of fuel per attempt left, [_call] comes back. *)
Lemma _call_total fuel self n a w :
  (n ≤ max_call_count)%nat → (max_call_count - n < fuel)%nat →
  is_Some (_call Args respond fuel self n a w).
Proof.
  revert self n w.
  induction fuel as [|fuel IH]; intros self n w Hn Hf; [lia|].
  cbn [_call].
  destruct (respond _ _ _ _) as [v|[msg|cls msg]]; [by eexists| |by eexists].
  destruct (Nat.eqb_spec n max_call_count) as [->|Hne]; [by eexists|].
  destruct (create_client_spec
              (evict (get_connection_identifier_from_client (mp_client self))
                 (invoked (mp_client self) (method_attr self) w)))
    as (pool & pools & objs & ->).
  match goal with
  | |- context [_call _ _ fuel ?s ?k a ?w0] =>
      destruct (IH s k w0) as [[[s' w'] [v|e]] ->]; [lia|lia|by eexists..]
  end.
Qed.

(** What every finished [_call] has done: its first act was a call
    on the guard's own client; the method cache and the guard's
    method name are as before; and either nothing was recreated
    and the proxy's client is untouched, or the guard and the proxy
    now share the client created last. *)
Lemma _call_dispatch fuel self n a w s w' r :
  _call Args respond fuel self n a w = Some (s, w', r) →
  (∃ rest, trace w' =
      (trace w ++
       Invoked (client_id (mp_client self)) (method_attr self) :: rest)%list) ∧
  method_cache w' = method_cache w ∧
  method_attr s = method_attr self ∧
  ((s = self ∧ proxy_client w' = proxy_client w ∧
    occurrences is_creation (trace w') = occurrences is_creation (trace w)) ∨
   mp_client s = proxy_client w').
Proof.
  revert self n w s w' r.
  induction fuel as [|fuel IH]; intros self n w s w' r; [done|].
  cbn [_call].
  assert (Hstop : ∀ o,
    Some (self, invoked (mp_client self) (method_attr self) w, o) = Some (s, w', r) →
    (∃ rest, trace w' =
        (trace w ++
         Invoked (client_id (mp_client self)) (method_attr self) :: rest)%list) ∧
    method_cache w' = method_cache w ∧
    method_attr s = method_attr self ∧
    ((s = self ∧ proxy_client w' = proxy_client w ∧
      occurrences is_creation (trace w') = occurrences is_creation (trace w)) ∨
     mp_client s = proxy_client w')).
  { intros o [= <- <- <-]. unfold invoked; cbn [trace method_cache proxy_client].
    split_and!; [by exists []|done|done|].
    left. split_and!; [done|done|].
    by rewrite occurrences_app, Nat.add_0_r. }
  destruct (respond _ _ _ _) as [v|[msg|cls msg]]; [by apply Hstop| |by apply Hstop].
  destruct (Nat.eqb n max_call_count); [by apply Hstop|].
  destruct (create_client_spec
              (evict (get_connection_identifier_from_client (mp_client self))
                 (invoked (mp_client self) (method_attr self) w)))
    as (pool & pools & objs & ->).
  match goal with
  | |- context [_call _ _ fuel ?s0 ?k a ?w0] =>
      destruct (_call Args respond fuel s0 k a w0) as [[[s1 w1] r1]|] eqn:E; [|done];
      apply IH in E as ([rest Ht] & Hc & Ha & Hs)
  end.
  cbn in Ht, Hc, Ha, Hs.
  intros Hr.
  assert (s1 = s ∧ w1 = w') as [-> ->] by (destruct r1; by inversion Hr).
  split_and!.
  - eexists. rewrite Ht, <- !app_assoc. reflexivity.
  - done.
  - done.
  - right. destruct Hs as [(-> & -> & _)| ->]; done.
Qed.

(** A guarded call that recovers on its third attempt gives [None]
    to its caller, whatever the third attempt returned, after two
    evict-and-recreate cycles. *)
Lemma recovered_value_dropped extra key a w self m1 m2 v :
  method_cache w !! key = Some self →
  (∀ c, respond (invocations w) c (method_attr self) a
          = Raises (ConnectionError m1)) →
  (∀ c, respond (S (invocations w)) c (method_attr self) a
          = Raises (ConnectionError m2)) →
  (∀ c, respond (S (S (invocations w))) c (method_attr self) a = Returns v) →
  ∃ w',
    __call__ Args respond (max_call_count + extra) key a w
      = Some (w', Returns VNone) ∧
    occurrences is_eviction (trace w')
      = (occurrences is_eviction (trace w) + 2)%nat ∧
    occurrences is_creation (trace w')
      = (occurrences is_creation (trace w) + 2)%nat.
Proof.
  intros Hkey H1 H2 H3. unfold __call__. rewrite Hkey.
  destruct (_call_third_attempt extra self a w m1 m2 H1 H2)
    as (c2 & w2 & Hi & _ & _ & (c1 & i1 & Ht) & ->).
  rewrite (_call_returns extra _ 3 a w2 v) by (rewrite Hi; apply H3).
  eexists; split; [reflexivity|].
  cbn [set_method invoked trace mp_client method_attr].
  rewrite Ht, <- app_assoc, !occurrences_app. by cbn.
Qed.

(** A connection error on an attempt before the last, with what the
    eviction and the recreation do to the world the retry starts in. *)
Lemma _call_recover fuel self n a w msg :
  respond (invocations w) (mp_client self) (method_attr self) a
    = Raises (ConnectionError msg) →
  n ≠ max_call_count →
  ∃ c w3,
    client_id c = objects w ∧
    connection_identifier c = target w ∧
    target w3 = target w ∧
    proxy_client w3 = proxy_client w ∧
    method_cache w3 = method_cache w ∧
    invocations w3 = S (invocations w) ∧
    trace w3 =
      (trace w ++
       [Invoked (client_id (mp_client self)) (method_attr self);
        Evicted (connection_identifier (mp_client self));
        Created (objects w)])%list ∧
    (objects w < objects w3)%nat ∧
    connection_pools w3 !! target w = Some (connection_pool c) ∧
    delete (target w) (connection_pools w3)
      = delete (target w)
          (delete (connection_identifier (mp_client self)) (connection_pools w)) ∧
    (connection_identifier (mp_client self) = target w →
     connection_pool c = S (objects w) ∧
     objects w3 = S (S (objects w)) ∧
     connection_pools w3
       = <[target w := S (objects w)]> (delete (target w) (connection_pools w))) ∧
    _call Args respond (S fuel) self n a w =
      match _call Args respond fuel
              {| mp_client := c; method_attr := method_attr self |}
              (n + 1) a (set_proxy_client c w3) with
      | Some (s, w5, Raises e) => Some (s, w5, Raises e)
      | Some (s, w5, Returns _) => Some (s, w5, Returns VNone)
      | None => None
      end.
Proof.
  intros H Hn. cbn [_call]. rewrite H.
  apply Nat.eqb_neq in Hn. rewrite Hn.
  unfold get_connection_identifier_from_client.
  destruct (recreate_spec (connection_identifier (mp_client self))
              (invoked (mp_client self) (method_attr self) w))
    as (c & w3 & -> & Hc).
  cbn [invoked objects target proxy_client method_cache invocations trace
       connection_pools] in Hc.
  rewrite <- app_assoc in Hc.
  exists c, w3. by destruct_and!.
Qed.

(** C5: when the underlying callable raises a connection error on
    each of the three allowed attempts, the guarded call raises the
    third attempt's connection error itself, after exactly two
    evict-and-recreate cycles: the first evicts the identifier of the
    guard's client and makes the next object the proxy's client, the
    second evicts the proxy's own identifier and makes a further new
    object [c2] the client, with a new pool, of the proxy and of the
    guard; the registry ends without the two identifiers but for that
    pool, and the trace of the call ends with the third attempt, so
    nothing is evicted or recreated after it. *)
Theorem connection_error_reraised_after_third_attempt
    extra key a w self m1 m2 m3 :
  method_cache w !! key = Some self →
  (∀ c, respond (invocations w) c (method_attr self) a
          = Raises (ConnectionError m1)) →
  (∀ c, respond (S (invocations w)) c (method_attr self) a
          = Raises (ConnectionError m2)) →
  (∀ c, respond (S (S (invocations w))) c (method_attr self) a
          = Raises (ConnectionError m3)) →
  ∃ w' c2,
    __call__ Args respond (max_call_count + extra) key a w
      = Some (w', Raises (ConnectionError m3)) ∧
    trace w' =
      (trace w ++
       [Invoked (client_id (mp_client self)) (method_attr self);
        Evicted (connection_identifier (mp_client self)); Created (objects w);
        Invoked (objects w) (method_attr self); Evicted (target w);
        Created (client_id c2);
        Invoked (client_id c2) (method_attr self)])%list ∧
    proxy_client w' = c2 ∧
    method_cache w'
      = <[key := {| mp_client := c2; method_attr := method_attr self |}]>
          (method_cache w) ∧
    connection_identifier c2 = target w ∧
    (objects w < client_id c2)%nat ∧
    connection_pool c2 = S (client_id c2) ∧
    objects w' = S (S (client_id c2)) ∧
    connection_pools w'
      = <[target w := connection_pool c2]>
          (delete (target w)
             (delete (connection_identifier (mp_client self))
                (connection_pools w))) ∧
    occurrences is_eviction (trace w')
      = (occurrences is_eviction (trace w) + 2)%nat ∧
    occurrences is_creation (trace w')
      = (occurrences is_creation (trace w) + 2)%nat ∧
    occurrences is_invocation (trace w')
      = (occurrences is_invocation (trace w) + 3)%nat.
Proof.
  intros Hkey H1 H2 H3. unfold __call__. rewrite Hkey.
  change (max_call_count + extra)%nat with (S (S (S extra))).
  destruct (_call_recover (S (S extra)) self 1 a w m1 (H1 _) ltac:(done))
    as (c1 & w3 & Hid1 & Hci1 & Ht1 & _ & Hm1 & Hi1 & Htr1 & Ho1 & _ & Hd1 & _ & ->).
  destruct (_call_recover (S extra) {| mp_client := c1; method_attr := method_attr self |}
              (1 + 1) a (set_proxy_client c1 w3) m2) as
    (c2 & w4 & Hid2 & Hci2 & Ht2 & _ & Hm2 & Hi2 & Htr2 & _ & _ & _ & Hnew & ->);
    [cbn [set_proxy_client invocations mp_client method_attr];
     rewrite Hi1; apply H2|done|].
  cbn [set_proxy_client mp_client method_attr objects target proxy_client
       method_cache invocations trace connection_pools] in *.
  destruct Hnew as (Hp2 & Ho2 & Hr2); [congruence|].
  rewrite (_call_exhausted extra _ a _ m3)
    by (cbn [set_proxy_client invocations mp_client method_attr];
        rewrite Hi2, Hi1; apply H3).
  exists (set_method key {| mp_client := c2; method_attr := method_attr self |}
            (invoked c2 (method_attr self) (set_proxy_client c2 w4))), c2.
  cbn [set_method invoked set_proxy_client mp_client method_attr objects target
       proxy_client method_cache invocations trace connection_pools].
  assert (Htrace : (trace w4 ++ [Invoked (client_id c2) (method_attr self)])%list =
    (trace w ++
     [Invoked (client_id (mp_client self)) (method_attr self);
      Evicted (connection_identifier (mp_client self)); Created (objects w);
      Invoked (objects w) (method_attr self); Evicted (target w);
      Created (client_id c2);
      Invoked (client_id c2) (method_attr self)])%list).
  { rewrite Htr2, Htr1, Hci1, Hid1, Hid2, <- !app_assoc. reflexivity. }
  rewrite Htrace, !occurrences_app.
  split_and!; try done.
  - by rewrite Hm2, Hm1.
  - congruence.
  - lia.
  - by rewrite Hp2, Hid2.
  - by rewrite Ho2, Hid2.
  - by rewrite Hr2, Hp2, Ht1, Hd1.
Qed.

(** C6: an error of the underlying callable that is not a
    connection error reaches the caller as it is, whichever attempt
    it occurs on (after [k] attempts lost to connection errors,
    [k] below the limit): the failing attempt is the last call made,
    and the only evictions and recreations are the [k] that the
    earlier connection errors caused, none on the first attempt. *)
Theorem other_error_propagates_without_retry
    extra key a w self k (lost : nat → string) cls msg :
  method_cache w !! key = Some self →
  (k < max_call_count)%nat →
  (∀ j c, (j < k)%nat →
     respond (invocations w + j)%nat c (method_attr self) a
       = Raises (ConnectionError (lost j))) →
  (∀ c, respond (invocations w + k)%nat c (method_attr self) a
          = Raises (OtherError cls msg)) →
  ∃ w',
    __call__ Args respond (max_call_count + extra) key a w
      = Some (w', Raises (OtherError cls msg)) ∧
    occurrences is_invocation (trace w')
      = (occurrences is_invocation (trace w) + k + 1)%nat ∧
    occurrences is_eviction (trace w')
      = (occurrences is_eviction (trace w) + k)%nat ∧
    occurrences is_creation (trace w')
      = (occurrences is_creation (trace w) + k)%nat.
Proof.
  intros Hkey Hk Hconn Hother. unfold __call__. rewrite Hkey.
  destruct k as [|[|[|k]]]; [| | |unfold max_call_count in Hk; lia].
  - rewrite Nat.add_0_r in Hother.
    change (max_call_count + extra)%nat with (S (S (S extra))).
    rewrite (_call_other_error _ _ 1 a w cls msg) by apply Hother.
    eexists; split; [reflexivity|].
    cbn [set_method invoked trace]. rewrite !occurrences_app. cbn. lia.
  - assert (H1 : ∀ c, respond (invocations w) c (method_attr self) a
                        = Raises (ConnectionError (lost 0%nat))).
    { intros c. rewrite <- (Nat.add_0_r (invocations w)). apply Hconn; lia. }
    rewrite Nat.add_1_r in Hother.
    destruct (_call_retry (S (S extra)) self 1 a w _ (H1 _) ltac:(done))
      as (p1 & ps1 & o1 & E1).
    cbn zeta in E1.
    change (max_call_count + extra)%nat with (S (S (S extra))).
    rewrite E1.
    rewrite (_call_other_error _ _ _ a _ cls msg) by apply Hother.
    eexists; split; [reflexivity|].
    cbn [set_method invoked trace]. rewrite !occurrences_app. cbn. lia.
  - assert (H1 : ∀ c, respond (invocations w) c (method_attr self) a
                        = Raises (ConnectionError (lost 0%nat))).
    { intros c. rewrite <- (Nat.add_0_r (invocations w)). apply Hconn; lia. }
    assert (H2 : ∀ c, respond (S (invocations w)) c (method_attr self) a
                        = Raises (ConnectionError (lost 1%nat))).
    { intros c. rewrite <- (Nat.add_1_r (invocations w)). apply Hconn; lia. }
    replace (invocations w + 2)%nat with (S (S (invocations w))) in Hother by lia.
    destruct (_call_third_attempt extra self a w _ _ H1 H2)
      as (c2 & w2 & Hi & _ & _ & (c1 & i1 & Ht) & ->).
    rewrite (_call_other_error _ _ 3 a w2 cls msg) by (rewrite Hi; apply Hother).
    eexists; split; [reflexivity|].
    cbn [set_method invoked trace mp_client method_attr].
    rewrite Ht, <- app_assoc, !occurrences_app. cbn. lia.
Qed.

(** C4, as amended: a guarded call always comes back, and its first
    act is a call of the guard's method on the client the guard
    itself holds.  Afterwards the cache differs at most in this
    guard, and either the guard and the proxy's client are as
    before, or the guard holds the proxy's new current client. *)
Theorem guard_dispatches_on_its_own_client extra key a w self :
  method_cache w !! key = Some self →
  ∃ w' r self',
    __call__ Args respond (max_call_count + extra) key a w = Some (w', r) ∧
    (∃ rest, trace w' =
       (trace w ++
        Invoked (client_id (mp_client self)) (method_attr self) :: rest)%list) ∧
    method_cache w' = <[key := self']> (method_cache w) ∧
    method_attr self' = method_attr self ∧
    ((self' = self ∧ proxy_client w' = proxy_client w ∧
      occurrences is_creation (trace w') = occurrences is_creation (trace w)) ∨
     mp_client self' = proxy_client w').
Proof.
  intros Hkey. unfold __call__. rewrite Hkey.
  destruct (_call_total (max_call_count + extra) self 1 a w)
    as [[[s w1] r] E]; [unfold max_call_count; lia..|].
  rewrite E. apply _call_dispatch in E as (Ht & Hc & Ha & Hs).
  exists (set_method key s w1), r, s.
  cbn [set_method trace method_cache proxy_client].
  by rewrite Hc.
Qed.

End Guard.

Import Sample.

(** C1: at a call whose first two attempts lose the connection and
    whose third attempt answers [PONG], the guarded call hands [None]
    to its caller, where a call answered at once hands on [PONG]; the
    two evict-and-recreate cycles do take place. *)
Theorem recovered_call_returns_none :
  observed (__call__ (list value) (scripted [lost; reset; pong])
              max_call_count "ping" [] proxy_in_use)
    = Some ([Created 0;
             Invoked 0 "ping"; Evicted "redis-a"; Created 2;
             Invoked 2 "ping"; Evicted "redis-a"; Created 4;
             Invoked 4 "ping"], 4%nat, Returns VNone) ∧
  observed (__call__ (list value) (scripted [pong])
              max_call_count "ping" [] proxy_in_use)
    = Some ([Created 0; Invoked 0 "ping"], 0%nat, Returns (VStr "PONG")).
Proof. split; vm_compute; reflexivity. Qed.

(** C4, counterexample: the [get] guard was built while client 0 was
    current; the recovery of the [set] guard then makes client 2 the
    proxy's current client; the next call through the [get] guard
    still goes to client 0. *)
Lemma stale_guard_calls_old_client :
  let client_of := scripted [lost; Returns (VStr "OK"); Returns (VStr "v")] in
  ∃ w1,
    __call__ (list value) client_of max_call_count "set" [VStr "k"; VStr "v"]
      proxy_in_use = Some (w1, Returns VNone) ∧
    client_id (proxy_client w1) = 2%nat ∧
    observed (__call__ (list value) client_of max_call_count "get" [VStr "k"] w1)
      = Some ((trace w1 ++ [Invoked 0 "get"])%list, 2%nat, Returns (VStr "v")).
Proof. eexists. split; [reflexivity|]. split; vm_compute; reflexivity. Qed.

Lemma guard_dispatches_on_its_own_client_witness :
  ∃ w' r self',
    __call__ (list value) (scripted [lost; pong]) (max_call_count + 0) "get" []
      proxy_in_use = Some (w', r) ∧
    (∃ rest, trace w' =
       (trace proxy_in_use ++
        Invoked (client_id (mp_client (guard_of "get")))
          (method_attr (guard_of "get")) :: rest)%list) ∧
    method_cache w' = <["get" := self']> (method_cache proxy_in_use) ∧
    method_attr self' = method_attr (guard_of "get") ∧
    ((self' = guard_of "get" ∧ proxy_client w' = proxy_client proxy_in_use ∧
      occurrences is_creation (trace w')
        = occurrences is_creation (trace proxy_in_use)) ∨
     mp_client self' = proxy_client w').
Proof.
  apply (guard_dispatches_on_its_own_client
           (scripted [lost; pong]) 0 "get" [] proxy_in_use (guard_of "get")).
  reflexivity.
Defined.

Lemma connection_error_reraised_witness :
  ∃ w' c2,
    __call__ (list value) (scripted [lost; reset; refused]) (max_call_count + 0)
      "ping" [] proxy_in_use
      = Some (w', Raises (ConnectionError "connection refused")) ∧
    trace w' =
      (trace proxy_in_use ++
       [Invoked (client_id (mp_client (guard_of "ping")))
          (method_attr (guard_of "ping"));
        Evicted (connection_identifier (mp_client (guard_of "ping")));
        Created (objects proxy_in_use);
        Invoked (objects proxy_in_use) (method_attr (guard_of "ping"));
        Evicted (target proxy_in_use);
        Created (client_id c2);
        Invoked (client_id c2) (method_attr (guard_of "ping"))])%list ∧
    proxy_client w' = c2 ∧
    method_cache w'
      = <["ping" := {| mp_client := c2;
                       method_attr := method_attr (guard_of "ping") |}]>
          (method_cache proxy_in_use) ∧
    connection_identifier c2 = target proxy_in_use ∧
    (objects proxy_in_use < client_id c2)%nat ∧
    connection_pool c2 = S (client_id c2) ∧
    objects w' = S (S (client_id c2)) ∧
    connection_pools w'
      = <[target proxy_in_use := connection_pool c2]>
          (delete (target proxy_in_use)
             (delete (connection_identifier (mp_client (guard_of "ping")))
                (connection_pools proxy_in_use))) ∧
    occurrences is_eviction (trace w')
      = (occurrences is_eviction (trace proxy_in_use) + 2)%nat ∧
    occurrences is_creation (trace w')
      = (occurrences is_creation (trace proxy_in_use) + 2)%nat ∧
    occurrences is_invocation (trace w')
      = (occurrences is_invocation (trace proxy_in_use) + 3)%nat.
Proof.
  apply (connection_error_reraised_after_third_attempt
           (scripted [lost; reset; refused]) 0 "ping" [] proxy_in_use
           (guard_of "ping") "connection lost" "connection reset by peer"
           "connection refused");
    [reflexivity | intros c; reflexivity ..].
Defined.

Lemma other_error_propagates_witness :
  ∃ w',
    __call__ (list value) (scripted [lost; wrong_type; pong]) (max_call_count + 0)
      "get" [VStr "k"] proxy_in_use
      = Some (w', Raises (OtherError "ResponseError"
                            "WRONGTYPE Operation against a key")) ∧
    occurrences is_invocation (trace w')
      = (occurrences is_invocation (trace proxy_in_use) + 1 + 1)%nat ∧
    occurrences is_eviction (trace w')
      = (occurrences is_eviction (trace proxy_in_use) + 1)%nat ∧
    occurrences is_creation (trace w')
      = (occurrences is_creation (trace proxy_in_use) + 1)%nat.
Proof.
  apply (other_error_propagates_without_retry
           (scripted [lost; wrong_type; pong]) 0 "get" [VStr "k"] proxy_in_use
           (guard_of "get") 1 (fun _ => "connection lost")
           "ResponseError" "WRONGTYPE Operation against a key").
  - reflexivity.
  - unfold max_call_count; lia.
  - intros j c Hj. assert (j = 0%nat) as -> by lia. reflexivity.
  - intros c. reflexivity.
Defined.

End ProxyFacts.

(** * Properties of the address parser *)

Module ParserFacts.
Import Urllib Parser Rule.

(** ** The parser on the addresses of the documentation *)

Example urlparse_full_url :
  urlparse "redis://:pw@LocalHost:6380/2?db=5&x=1#f" =
  Ok {| scheme := "redis"; netloc := ":pw@LocalHost:6380"; path := "/2";
        query := "db=5&x=1"; fragment := "f" |}.
Proof. reflexivity. Qed.

Example parse_redis_url :
  parse_connection_kwargs "redis://localhost:6379/2" VNone ∅ [] =
  ([], Ok (<["db" := VInt 2]> (<["password" := VNone]> (<["port" := VInt 6379]>
          (<["host" := VStr "localhost"]> (<["unix_socket_path" := VStr ""]> ∅)))))).
Proof. vm_compute. reflexivity. Qed.

Example parse_rediss_url :
  snd (parse_connection_kwargs "rediss://host/0" VNone ∅ []) =
  Ok (<["connection_class" := SSLConnection]> (<["db" := VInt 0]>
        (<["password" := VNone]> (<["port" := VInt 6379]>
        (<["host" := VStr "host"]> (<["unix_socket_path" := VStr ""]> ∅)))))).
Proof. vm_compute. reflexivity. Qed.

Example parse_unix_url :
  snd (parse_connection_kwargs "unix://:secret@/tmp/redis.sock" VNone ∅ []) =
  Ok (<["db" := VInt 0]> (<["password" := VStr "secret"]>
        (<["unix_socket_path" := VStr "/tmp/redis.sock"]> ∅))).
Proof. vm_compute. reflexivity. Qed.

Example parse_query_db_and_charset :
  parse_connection_kwargs "redis://localhost/7?db=5&charset=latin1" (VInt 9) ∅ [] =
  ([DeprecationWarning (deprecated "charset" "encoding")],
   Ok (<["db" := VInt 5]> (<["password" := VNone]> (<["port" := VInt 6379]>
          (<["host" := VStr "localhost"]> (<["unix_socket_path" := VStr ""]>
          (<["encoding" := VStr "latin1"]> ∅))))))).
Proof. vm_compute. reflexivity. Qed.

Example parse_path_db :
  database_of (parse_connection_kwargs "redis://localhost/7" (VInt 9) ∅ [])
  = Ok (Some (VInt 7)).
Proof. vm_compute. reflexivity. Qed.

Example parse_bad_port :
  snd (parse_connection_kwargs "myhost:notaport" VNone ∅ []) =
  Raise (ImproperlyConfigured "'notaport' from myhost:notaport must be an integer").
Proof. vm_compute. reflexivity. Qed.

Example parse_socket_path :
  snd (parse_connection_kwargs "/var/run/redis.sock" (VInt 1) ∅ []) =
  Ok (<["db" := VInt 1]> (<["unix_socket_path" := VStr "/var/run/redis.sock"]>
        (<["port" := VNone]> (<["host" := VNone]> ∅)))).
Proof. vm_compute. reflexivity. Qed.

Example get_servers_two :
  get_servers (LString "redis://a:1/0?x=1,2,b:2") =
  Ok ["redis://a:1/0?x=1"; "2"; "b:2"].
Proof. reflexivity. Qed.

(** ** Splitting a server list *)

Lemma split_fields_spec c s :
  let (h, t) := Py.split_fields c s in
  length t = Py.count c s ∧
  Forall (fun x => Py.count c x = 0%nat) (h :: t) ∧
  Py.join c (h :: t) = s.
Proof.
  induction s as [|a s IH]; cbn [Py.split_fields Py.count].
  - split_and!; [done|by repeat constructor|done].
  - destruct (Py.split_fields c s) as [h t].
    destruct IH as (Hlen & Hall & Hjoin).
    destruct (Ascii.eqb_spec a c) as [->|Hne].
    + split_and!; [cbn; by rewrite Hlen|by constructor|].
      change (Py.join c ("" :: h :: t)) with (String c (Py.join c (h :: t))).
      by rewrite Hjoin.
    + apply Forall_cons in Hall as [Hh Ht].
      split_and!; [done| |].
      * constructor; [|done]. cbn.
        apply Ascii.eqb_neq in Hne. by rewrite Hne.
      * rewrite <- Hjoin. by destruct t.
Qed.

(** ** The warnings do not steer the parse *)

Lemma rename_deprecated_result old new msg kwargs ws ws' :
  snd (rename_deprecated old new msg kwargs ws)
  = snd (rename_deprecated old new msg kwargs ws').
Proof. unfold rename_deprecated. by destruct (kwargs !! old). Qed.

Lemma rename_deprecated_ok old new msg kwargs ws :
  ∃ ws' p, rename_deprecated old new msg kwargs ws = (ws', Ok p) ∧
    ∀ k, k ≠ old → k ≠ new → p !! k = kwargs !! k.
Proof.
  unfold rename_deprecated.
  destruct (kwargs !! old) as [v|]; cbn; eexists _, _; (split; [reflexivity|]).
  - intros k Ho Hn. by rewrite lookup_insert_ne, lookup_delete_ne.
  - done.
Qed.

Lemma url_form_result url qs db kwargs ws ws' :
  snd (url_form url qs db kwargs ws) = snd (url_form url qs db kwargs ws').
Proof.
  unfold url_form, bind, lift.
  destruct (url_options url qs db) as [opts|e]; [|done].
  destruct (rename_deprecated_ok "charset" "encoding"
              (deprecated "charset" "encoding")
              (opts ∪ kwargs) ws) as (w1 & p1 & E1 & _).
  destruct (rename_deprecated_ok "charset" "encoding"
              (deprecated "charset" "encoding")
              (opts ∪ kwargs) ws') as (w2 & p2 & E2 & _).
  pose proof (rename_deprecated_result "charset" "encoding"
              (deprecated "charset" "encoding")
              (opts ∪ kwargs) ws ws') as E.
  rewrite E1, E2 in E |- *. cbn in E. injection E as ->.
  apply rename_deprecated_result.
Qed.

Lemma parse_result_independent server db kwargs ws ws' :
  snd (parse_connection_kwargs server db kwargs ws)
  = snd (parse_connection_kwargs server db kwargs ws').
Proof.
  unfold parse_connection_kwargs.
  destruct (Py.contains "://" server); [|done].
  unfold bind, lift. destruct (split_query server) as [[url qs]|e]; [|done].
  apply url_form_result.
Qed.

(** ** The database a URL selects *)

Lemma port_value url p :
  port url = Ok p → ∃ n, Py.int (Py.or p (VInt 6379)) = Ok n.
Proof.
  unfold port. destruct (snd (hostinfo url)) as [t|]; [|intros [= <-]; by eexists].
  destruct (Py.int_of_string t) as [n|]; [|done].
  destruct (_ && _)%bool; [|done]. intros [= <-].
  unfold Py.or, Py.truthy. destruct (n =? 0); by eexists.
Qed.

Lemma path_number_empty path :
  Py.truthy (VStr path) = false → path_number path = None.
Proof.
  cbn. destruct (String.eqb_spec path "") as [->|]; [done|discriminate].
Qed.

(** The [db] entry of [url_options]: the query value, else (outside
    [unix]) the number of the path, else [db or 0], converted by [int];
    and no other step fails once the port is fine. *)
Lemma url_options_db url qs db :
  (String.eqb (scheme url) "unix" = true ∨ ∃ p, port url = Ok p) →
  match
    match query_options qs !! "db" with
    | Some v => Py.int v
    | None =>
        match (if String.eqb (scheme url) "unix" then None
               else path_number (path url)) with
        | Some n => Ok n
        | None => Py.int (Py.or db (VInt 0))
        end
    end
  with
  | Ok z => ∃ opts, url_options url qs db = Ok opts ∧ opts !! "db" = Some (VInt z)
  | Raise e => url_options url qs db = Raise e
  end.
Proof.
  intros Hport. unfold url_options.
  set (q := query_options qs).
  destruct (String.eqb (scheme url) "unix") eqn:Hunix.
  - cbn [rbind]. rewrite !lookup_insert_ne by done.
    destruct (q !! "db") as [v|]; cbn [default from_option id].
    + destruct (Py.int v) as [z|e]; cbn [rbind]; [|done].
      eexists; split; [done|]. by rewrite lookup_insert_eq.
    + destruct (Py.int (Py.or db (VInt 0))) as [z|e]; cbn [rbind]; [|done].
      eexists; split; [done|]. by rewrite lookup_insert_eq.
  - destruct Hport as [|[p Hp]]; [done|].
    rewrite Hp. cbn [rbind].
    destruct (port_value _ _ Hp) as [n ->]. cbn [rbind].
    rewrite !lookup_insert_ne by done.
    assert (Hssl : ∀ (o : bool) (m : dict),
      (if o then <["connection_class" := SSLConnection]> m else m) !! "db"
      = m !! "db").
    { intros [] m; [by rewrite lookup_insert_ne|done]. }
    destruct (q !! "db") as [v|] eqn:Hq.
    + rewrite bool_decide_eq_true_2 by by eexists. cbn [negb andb rbind].
      rewrite Hssl, !lookup_insert_ne, Hq by done. cbn [default from_option id].
      destruct (Py.int v) as [z|e]; cbn [rbind]; [|done].
      eexists; split; [done|]. by rewrite lookup_insert_eq.
    + rewrite bool_decide_eq_false_2 by by intros [??]. cbn [negb andb].
      destruct (Py.truthy (VStr (path url))) eqn:Hpath.
      * unfold path_number. cbn [Py.int].
        destruct (Py.int_of_string (Py.remove "/" (path url))) as [d|];
          cbn [rbind].
        -- rewrite Hssl, lookup_insert_eq. cbn [default from_option id Py.int rbind].
           eexists; split; [done|]. by rewrite lookup_insert_eq.
        -- rewrite Hssl, !lookup_insert_ne, Hq by done.
           cbn [default from_option id].
           destruct (Py.int (Py.or db (VInt 0))) as [z|e]; cbn [rbind]; [|done].
           eexists; split; [done|]. by rewrite lookup_insert_eq.
      * rewrite (path_number_empty _ Hpath). cbn [rbind].
        rewrite Hssl, !lookup_insert_ne, Hq by done.
        cbn [default from_option id].
        destruct (Py.int (Py.or db (VInt 0))) as [z|e]; cbn [rbind]; [|done].
        eexists; split; [done|]. by rewrite lookup_insert_eq.
Qed.

Lemma parse_database server db kwargs ws url qs :
  Py.contains "://" server = true →
  split_query server = Ok (url, qs) →
  (String.eqb (scheme url) "unix" = true ∨ ∃ p, port url = Ok p) →
  database_of (parse_connection_kwargs server db kwargs ws) =
  rmap (fun z => Some (VInt z))
    match query_options qs !! "db" with
    | Some v => Py.int v
    | None =>
        match (if String.eqb (scheme url) "unix" then None
               else path_number (path url)) with
        | Some n => Ok n
        | None => Py.int (Py.or db (VInt 0))
        end
    end.
Proof.
  intros Hurl Hsplit Hport.
  pose proof (url_options_db url qs db Hport) as Hdb.
  unfold database_of, parse_connection_kwargs.
  rewrite Hurl. unfold bind at 1, lift at 1. rewrite Hsplit. cbn [fst snd].
  unfold url_form, bind, lift.
  destruct (match query_options qs !! "db" with Some _ => _ | None => _ end)
    as [z|e].
  - destruct Hdb as (opts & -> & Hz).
    destruct (rename_deprecated_ok "charset" "encoding"
                (deprecated "charset" "encoding")
                (opts ∪ <["unix_socket_path":=VStr ""]> kwargs) ws)
      as (w1 & p1 & -> & H1).
    destruct (rename_deprecated_ok "errors" "encoding_errors"
                (deprecated "errors" "encoding_errors") p1 w1)
      as (w2 & p2 & -> & H2).
    cbn. rewrite H2, H1 by done.
    by rewrite (lookup_union_Some_l _ _ _ _ Hz).
  - by rewrite Hdb.
Qed.

Lemma url_options_needs_port url qs db opts :
  url_options url qs db = Ok opts →
  String.eqb (scheme url) "unix" = true ∨ ∃ p, port url = Ok p.
Proof.
  unfold url_options.
  destruct (String.eqb (scheme url) "unix"); [by left|].
  destruct (port url) as [p|e]; [right; by eexists|done].
Qed.

Lemma int_raises v e : Py.int v = Raise e → conversion_error e.
Proof.
  destruct v as [|z|t|c]; cbn; try by intros [= <-].
  destruct (Py.int_of_string t); [done|by intros [= <-]].
Qed.

Ltac last_conversion :=
  cbn [rbind];
  destruct (Py.int (default _ _)) eqn:?; cbn [rbind]; [done|];
  intros [= <-]; by eapply int_raises.

Lemma url_options_raises url qs db e :
  url_options url qs db = Raise e → conversion_error e.
Proof.
  unfold url_options.
  destruct (String.eqb (scheme url) "unix"); [last_conversion|].
  destruct (port url) as [p|e'] eqn:Hp; cbn [rbind].
  - destruct (port_value _ _ Hp) as [n ->]. cbn [rbind].
    destruct (_ && _)%bool; [|last_conversion].
    destruct (Py.int (VStr _)) as [d|e'] eqn:E; [last_conversion|].
    apply int_raises in E.
    destruct e'; [done|last_conversion|].
    cbn [rbind]. by intros [= <-].
  - intros [= <-]. revert Hp. unfold port.
    destruct (snd (hostinfo url)) as [t|]; [|done].
    destruct (Py.int_of_string t); [|by intros [= <-]].
    destruct (_ && _)%bool; [done|by intros [= <-]].
Qed.

Lemma parse_url_form server db kwargs ws url qs :
  Py.contains "://" server = true →
  split_query server = Ok (url, qs) →
  parse_connection_kwargs server db kwargs ws
  = url_form url qs db (<["unix_socket_path" := VStr ""]> kwargs) ws.
Proof.
  intros Hurl Hsplit. unfold parse_connection_kwargs. rewrite Hurl.
  unfold bind at 1, lift at 1. by rewrite Hsplit.
Qed.

(** ** The claims about the parser *)

(** C10: a string location is split at every comma before any address
    is parsed: it yields one server more than it has commas, no server
    holds a comma, and joining the servers with commas gives the
    string back. *)
Theorem get_servers_splits_at_every_comma (s : string) :
  ∃ servers,
    get_servers (LString s) = Ok servers ∧
    length servers = S (Py.count "," s) ∧
    Forall (fun server => Py.count "," server = 0%nat) servers ∧
    Py.join "," servers = s.
Proof.
  unfold get_servers, Py.split.
  pose proof (split_fields_spec "," s) as H.
  destruct (Py.split_fields "," s) as [h t].
  destruct H as (Hlen & Hall & Hjoin).
  exists (h :: t). split_and!; [done|cbn; by rewrite Hlen|done|done].
Qed.

(** C9: parsing the same server string twice with the same default
    database and options, the second time with the warnings of the
    first already emitted, gives the same outcome both times: the same
    connection parameters, or the same exception. *)
Theorem parse_twice_same_parameters server db kwargs ws :
  let first := parse_connection_kwargs server db kwargs ws in
  let second := parse_connection_kwargs server db kwargs (fst first) in
  snd second = snd first.
Proof. cbv zeta. apply parse_result_independent. Qed.

(** C8: the port written as 0 in a URL is read as 0 by [urlparse] and
    then replaced by 6379, while the same port in [host:port] form is
    kept. *)
Theorem url_port_zero_becomes_default :
  rbind (urlparse "redis://host:0") port = Ok (VInt 0) ∧
  port_of (parse_connection_kwargs "redis://host:0" VNone ∅ []) = Some (VInt 6379) ∧
  port_of (parse_connection_kwargs "myhost:0" VNone ∅ []) = Some (VInt 0).
Proof. split_and!; vm_compute; reflexivity. Qed.

(** C2, counterexample: an [http] URL is parsed without complaint into
    TCP connection parameters. *)
Lemma http_url_is_parsed :
  parse_connection_kwargs "http://example.com:8080/1" VNone ∅ [] =
  ([], Ok (<["host" := VStr "example.com"]> (<["port" := VInt 8080]>
          (<["password" := VNone]> (<["db" := VInt 1]>
          (<["unix_socket_path" := VStr ""]> ∅)))))).
Proof. vm_compute. reflexivity. Qed.

(** C2, as amended: a URL whose scheme is none of [redis], [rediss] and
    [unix] is handled exactly as the same parsed URL under the scheme
    [redis], and if that fails, it fails with the exception of a
    conversion, not with a configuration error. *)
Theorem unknown_scheme_is_parsed_as_redis server db kwargs ws url qs :
  Py.contains "://" server = true →
  split_query server = Ok (url, qs) →
  scheme url ≠ "redis" → scheme url ≠ "rediss" → scheme url ≠ "unix" →
  parse_connection_kwargs server db kwargs ws
    = url_form (with_scheme "redis" url) qs db
        (<["unix_socket_path" := VStr ""]> kwargs) ws ∧
  ∀ e, snd (parse_connection_kwargs server db kwargs ws) = Raise e →
       conversion_error e.
Proof.
  intros Hurl Hsplit _ Hs Hu.
  apply String.eqb_neq in Hs, Hu.
  rewrite (parse_url_form _ _ _ _ _ _ Hurl Hsplit).
  assert (Hopts : url_options (with_scheme "redis" url) qs db = url_options url qs db).
  { unfold url_options, with_scheme. cbn [scheme path]. rewrite Hs, Hu.
    reflexivity. }
  split.
  - unfold url_form. by rewrite Hopts.
  - intros e. unfold url_form, bind, lift.
    destruct (url_options url qs db) as [opts|e'] eqn:E.
    + destruct (rename_deprecated_ok "charset" "encoding"
                  (deprecated "charset" "encoding")
                  (opts ∪ <["unix_socket_path":=VStr ""]> kwargs) ws)
        as (w1 & p1 & -> & _).
      destruct (rename_deprecated_ok "errors" "encoding_errors"
                  (deprecated "errors" "encoding_errors") p1 w1)
        as (w2 & p2 & -> & _).
      done.
    + intros [= <-]. by eapply url_options_raises.
Qed.

(** C3, counterexample: [myhost:9999] without a default database is
    parsed with its database unset, and a negative [db] query
    parameter gives a negative database. *)
Lemma database_unset_or_negative :
  database_of (parse_connection_kwargs "myhost:9999" VNone ∅ []) = Ok (Some VNone) ∧
  database_of (parse_connection_kwargs "redis://myhost?db=-1" VNone ∅ [])
    = Ok (Some (VInt (-1))).
Proof. split; vm_compute; reflexivity. Qed.

(** C3, as amended: a successfully parsed URL has its database set to
    an integer, never left unset: the integer written where the
    precedence finds it (the [db] query parameter, else outside [unix]
    the number of the path, else the default), negative if written
    so, and 0 when there is no [db] query parameter, no number in the
    path and no default. *)
Theorem url_database_is_an_integer server db kwargs ws ws' p :
  Py.contains "://" server = true →
  parse_connection_kwargs server db kwargs ws = (ws', Ok p) →
  ∃ z, p !! "db" = Some (VInt z) ∧
    ∀ url qs,
      split_query server = Ok (url, qs) →
      match query_options qs !! "db" with
      | Some v => Py.int v = Ok z
      | None =>
          match (if String.eqb (scheme url) "unix" then None
                 else path_number (path url)) with
          | Some n => z = n
          | None =>
              Py.int (Py.or db (VInt 0)) = Ok z ∧
              (Py.truthy db = false → z = 0)
          end
      end.
Proof.
  intros Hurl Hparse.
  assert (∃ url qs opts, split_query server = Ok (url, qs) ∧
            url_options url qs db = Ok opts) as (url & qs & opts & Hsplit & Hopts).
  { revert Hparse. unfold parse_connection_kwargs. rewrite Hurl.
    unfold bind at 1, lift at 1.
    destruct (split_query server) as [[url qs]|]; [|done]. cbn [fst snd].
    unfold url_form, bind, lift.
    destruct (url_options url qs db) as [opts|] eqn:E; [|done].
    intros _. by exists url, qs, opts. }
  pose proof (parse_database server db kwargs ws url qs Hurl Hsplit
                (url_options_needs_port _ _ _ _ Hopts)) as Hdb.
  unfold database_of in Hdb. rewrite Hparse in Hdb. cbn [snd] in Hdb.
  destruct (match query_options qs !! "db" with Some _ => _ | None => _ end)
    as [z|] eqn:Hsel; [|done].
  injection Hdb as Hdb. exists z. split; [done|].
  intros url' qs' Hsplit'.
  rewrite Hsplit in Hsplit'. injection Hsplit' as <- <-.
  destruct (query_options qs !! "db"); [done|].
  destruct (if String.eqb (scheme url) "unix" then None else _);
    [by injection Hsel|].
  split; [done|]. intros Hdefault.
  unfold Py.or in Hsel. rewrite Hdefault in Hsel. by injection Hsel.
Qed.

(** C7, counterexample: in a [unix] URL the number in the path is the
    socket path and does not beat the default database. *)
Lemma unix_path_number_is_not_the_database :
  rmap path (urlparse "unix:///5") = Ok "/5" ∧
  path_number "/5" = Some 5 ∧
  database_of (parse_connection_kwargs "unix:///5" (VInt 9) ∅ [])
    = Ok (Some (VInt 9)).
Proof. split_and!; vm_compute; reflexivity. Qed.

(** C7, as amended: for a URL with a well-formed port the database is
    the one the precedence rule selects, the number in the path being a
    candidate for every scheme but [unix]: the [db] query parameter,
    else that number, else the caller's default, else 0.  A path that
    is no number is passed over and raises nothing. *)
Theorem database_follows_precedence server default_db kwargs ws url qs :
  Py.contains "://" server = true →
  split_query server = Ok (url, qs) →
  (String.eqb (scheme url) "unix" = true ∨ ∃ p, port url = Ok p) →
  database_of (parse_connection_kwargs server (db_argument default_db) kwargs ws)
  = rmap (fun z => Some (VInt z))
      (database_by_precedence
         (query_options qs !! "db")
         (if String.eqb (scheme url) "unix" then None else path_number (path url))
         default_db).
Proof.
  intros Hurl Hsplit Hport.
  rewrite (parse_database _ _ _ _ _ _ Hurl Hsplit Hport).
  unfold database_by_precedence.
  destruct (query_options qs !! "db"); [done|].
  destruct (if String.eqb (scheme url) "unix" then None else _); [done|].
  destruct default_db as [d|]; [|done].
  unfold db_argument, Py.or, Py.truthy.
  by destruct (Z.eqb_spec d 0) as [->|].
Qed.

Lemma unknown_scheme_is_parsed_as_redis_witness :
  parse_connection_kwargs "http://example.com:8080/1" VNone ∅ []
    = url_form (with_scheme "redis" Sample.http_url) "" VNone
        (<["unix_socket_path" := VStr ""]> ∅) [] ∧
  ∀ e, snd (parse_connection_kwargs "http://example.com:8080/1" VNone ∅ [])
         = Raise e → conversion_error e.
Proof.
  apply (unknown_scheme_is_parsed_as_redis
           "http://example.com:8080/1" VNone ∅ [] Sample.http_url "");
    [reflexivity | reflexivity | discriminate ..].
Defined.

Lemma url_database_is_an_integer_witness :
  ∃ z, Sample.localhost_parameters !! "db" = Some (VInt z) ∧
    ∀ url qs,
      split_query "redis://localhost" = Ok (url, qs) →
      match query_options qs !! "db" with
      | Some v => Py.int v = Ok z
      | None =>
          match (if String.eqb (scheme url) "unix" then None
                 else path_number (path url)) with
          | Some n => z = n
          | None =>
              Py.int (Py.or VNone (VInt 0)) = Ok z ∧
              (Py.truthy VNone = false → z = 0)
          end
      end.
Proof.
  apply (url_database_is_an_integer
           "redis://localhost" VNone ∅ [] [] Sample.localhost_parameters).
  - reflexivity.
  - vm_compute. reflexivity.
Defined.

Lemma database_follows_precedence_witness :
  database_of (parse_connection_kwargs "redis://localhost/7"
                 (db_argument (Some 9)) ∅ [])
  = rmap (fun z => Some (VInt z))
      (database_by_precedence
         (query_options "" !! "db")
         (if String.eqb (scheme Sample.redis_url) "unix" then None
          else path_number (path Sample.redis_url))
         (Some 9)).
Proof.
  apply (database_follows_precedence
           "redis://localhost/7" (Some 9) ∅ [] Sample.redis_url "");
    [reflexivity | reflexivity | right; exists VNone; reflexivity].
Defined.

End ParserFacts.

(** * Further properties of the proxy *)

Module ProxyMore.
Import Proxy Run.

Section Calls.
Context {Args : Type}.
Variable respond : nat -> client -> string -> Args -> outcome.
Variable callable : string -> bool.
Variable attribute : client -> string -> value.

(** What a finished [_call] started within the limit has cost: one call
    on the client per attempt, and one eviction and one recreation per
    attempt but the last, the attempts ending at the limit at the
    latest. *)
Lemma _call_counts fuel self n a w s w' r :
  _call Args respond fuel self n a w = Some (s, w', r) →
  (n ≤ max_call_count)%nat →
  ∃ k, (n + k ≤ max_call_count)%nat ∧
    invocations w' = (invocations w + S k)%nat ∧
    occurrences is_invocation (trace w')
      = (occurrences is_invocation (trace w) + S k)%nat ∧
    occurrences is_eviction (trace w')
      = (occurrences is_eviction (trace w) + k)%nat ∧
    occurrences is_creation (trace w')
      = (occurrences is_creation (trace w) + k)%nat.
Proof.
  revert self n w s w' r.
  induction fuel as [|fuel IH]; intros self n w s w' r; [done|].
  cbn [_call]. intros Hrun Hn.
  assert (Hstop : ∀ o,
    Some (self, invoked (mp_client self) (method_attr self) w, o) = Some (s, w', r) →
    ∃ k, (n + k ≤ max_call_count)%nat ∧
      invocations w' = (invocations w + S k)%nat ∧
      occurrences is_invocation (trace w')
        = (occurrences is_invocation (trace w) + S k)%nat ∧
      occurrences is_eviction (trace w')
        = (occurrences is_eviction (trace w) + k)%nat ∧
      occurrences is_creation (trace w')
        = (occurrences is_creation (trace w) + k)%nat).
  { intros o [= <- <- <-]. exists 0%nat.
    unfold invoked; cbn [trace invocations]. rewrite !ProxyFacts.occurrences_app.
    cbn. lia. }
  destruct (respond _ _ _ _) as [v|[msg|cls msg]]; [by eapply Hstop| |by eapply Hstop].
  destruct (Nat.eqb_spec n max_call_count) as [->|Hne]; [by eapply Hstop|].
  destruct (ProxyFacts.create_client_spec
              (evict (get_connection_identifier_from_client (mp_client self))
                 (invoked (mp_client self) (method_attr self) w)))
    as (pool & pools & objs & E).
  rewrite E in Hrun.
  match type of Hrun with
  | context [_call _ _ fuel ?s0 ?m a ?w0] =>
      destruct (_call Args respond fuel s0 m a w0) as [[[s1 w1] r1]|] eqn:Einner;
        [|done];
      apply IH in Einner as (k & Hk & Hi & Hin & Hev & Hcr); [|lia]
  end.
  assert (w1 = w') as -> by (destruct r1; by inversion Hrun).
  cbn [evict invoked set_proxy_client trace invocations] in Hi, Hin, Hev, Hcr.
  rewrite !ProxyFacts.occurrences_app in Hin, Hev, Hcr. cbn in Hin, Hev, Hcr.
  exists (S k). lia.
Qed.

(** What a finished [_call] started within the limit has done, by the
    number [k] of its evictions and recreations: with none, the guard,
    the registry, the proxy's client and the objects are as before;
    otherwise the guard holds the proxy's client, which is an object
    made during the call and carries the proxy's identifier, the
    registry has its pool under that identifier and has lost the
    identifier of the guard's old client, and that pool is a new
    object too when the old client carried the proxy's identifier. *)
Lemma _call_effects fuel self n a w s w' r :
  _call Args respond fuel self n a w = Some (s, w', r) →
  (n ≤ max_call_count)%nat →
  target w' = target w ∧
  ∃ k, (n + k ≤ max_call_count)%nat ∧
    occurrences is_invocation (trace w')
      = (occurrences is_invocation (trace w) + S k)%nat ∧
    occurrences is_eviction (trace w')
      = (occurrences is_eviction (trace w) + k)%nat ∧
    occurrences is_creation (trace w')
      = (occurrences is_creation (trace w) + k)%nat ∧
    ((k = 0%nat ∧ s = self ∧
      connection_pools w' = connection_pools w ∧
      proxy_client w' = proxy_client w ∧
      objects w' = objects w) ∨
     ((0 < k)%nat ∧
      mp_client s = proxy_client w' ∧
      connection_identifier (proxy_client w') = target w ∧
      (objects w ≤ client_id (proxy_client w') < objects w')%nat ∧
      connection_pools w' !! target w = Some (connection_pool (proxy_client w')) ∧
      delete (target w) (connection_pools w')
        = delete (target w)
            (delete (connection_identifier (mp_client self)) (connection_pools w)) ∧
      (connection_identifier (mp_client self) = target w →
       (objects w ≤ connection_pool (proxy_client w') < objects w')%nat))).
Proof.
  revert self n w s w' r.
  induction fuel as [|fuel IH]; intros self n w s w' r; [done|].
  intros Hrun Hn.
  assert (Hstop : ∀ o,
    Some (self, invoked (mp_client self) (method_attr self) w, o) = Some (s, w', r) →
    target w' = target w ∧
    ∃ k, (n + k ≤ max_call_count)%nat ∧
      occurrences is_invocation (trace w')
        = (occurrences is_invocation (trace w) + S k)%nat ∧
      occurrences is_eviction (trace w')
        = (occurrences is_eviction (trace w) + k)%nat ∧
      occurrences is_creation (trace w')
        = (occurrences is_creation (trace w) + k)%nat ∧
      ((k = 0%nat ∧ s = self ∧
        connection_pools w' = connection_pools w ∧
        proxy_client w' = proxy_client w ∧
        objects w' = objects w) ∨
       ((0 < k)%nat ∧
        mp_client s = proxy_client w' ∧
        connection_identifier (proxy_client w') = target w ∧
        (objects w ≤ client_id (proxy_client w') < objects w')%nat ∧
        connection_pools w' !! target w = Some (connection_pool (proxy_client w')) ∧
        delete (target w) (connection_pools w')
          = delete (target w)
              (delete (connection_identifier (mp_client self)) (connection_pools w)) ∧
        (connection_identifier (mp_client self) = target w →
         (objects w ≤ connection_pool (proxy_client w') < objects w')%nat)))).
  { intros o [= <- <- <-]. split; [done|]. exists 0%nat.
    unfold invoked; cbn [trace connection_pools proxy_client objects].
    rewrite !ProxyFacts.occurrences_app. cbn.
    split_and!; [lia..|]. by left. }
  destruct (respond (invocations w) (mp_client self) (method_attr self) a)
    as [v|[msg|cls msg]] eqn:Hres.
  - cbn [_call] in Hrun. rewrite Hres in Hrun. by eapply Hstop.
  - destruct (Nat.eqb_spec n max_call_count) as [->|Hne].
    { cbn [_call] in Hrun. rewrite Hres, Nat.eqb_refl in Hrun. by eapply Hstop. }
    destruct (ProxyFacts._call_recover respond fuel self n a w msg Hres Hne)
      as (c & w3 & Hid & Hci & Ht & _ & _ & _ & Htr & Ho & Hpool & Hdel & Hnew & E).
    rewrite E in Hrun. clear E.
    destruct (_call Args respond fuel _ (n + 1) a (set_proxy_client c w3))
      as [[[s1 w1] r1]|] eqn:Einner; [|done].
    assert (s1 = s ∧ w1 = w') as [-> ->] by (destruct r1; by inversion Hrun).
    apply IH in Einner as (Ht' & k & Hk & Hin & Hev & Hcr & Hcase); [|lia].
    cbn [set_proxy_client mp_client method_attr objects target proxy_client
         connection_pools trace] in Ht', Hin, Hev, Hcr, Hcase.
    rewrite Htr, !ProxyFacts.occurrences_app in Hin, Hev, Hcr.
    cbn in Hin, Hev, Hcr.
    split; [congruence|]. exists (S k). split_and!; [lia..|].
    right. rewrite Ht in Hcase.
    destruct Hcase as [(-> & -> & Hp & Hc & Hob)|(Hpos & Hs & Hi & Hb & Hp & Hd & Hf)].
    + cbn [mp_client]. rewrite Hp, Hc, Hob.
      split_and!; try done; try lia.
      intros Hself. destruct (Hnew Hself) as (-> & -> & _). lia.
    + rewrite Hci, delete_delete_eq in Hd.
      split_and!; try done; try lia; [congruence|].
      intros _. specialize (Hf Hci). lia.
  - cbn [_call] in Hrun. rewrite Hres in Hrun. by eapply Hstop.
Qed.

(** X1: whatever the underlying callable does, a guarded call comes
    back after at least one and at most three calls on a client, with
    one eviction and one recreation per call but the last.  Without a
    recreation the guard, the registry, the proxy's client and the
    objects are as before.  Otherwise the guard and the proxy end on
    the same client, an object made during the call under the proxy's
    identifier; the registry holds that client's pool under this
    identifier and has lost the identifier of the guard's old client;
    and the pool is a new object too when the old client carried the
    proxy's identifier. *)
Theorem attempts_bounded extra key a w self :
  method_cache w !! key = Some self →
  ∃ w' r k self',
    __call__ Args respond (max_call_count + extra) key a w = Some (w', r) ∧
    (k < max_call_count)%nat ∧
    occurrences is_invocation (trace w')
      = (occurrences is_invocation (trace w) + S k)%nat ∧
    occurrences is_eviction (trace w')
      = (occurrences is_eviction (trace w) + k)%nat ∧
    occurrences is_creation (trace w')
      = (occurrences is_creation (trace w) + k)%nat ∧
    method_cache w' = <[key := self']> (method_cache w) ∧
    ((k = 0%nat ∧ self' = self ∧
      connection_pools w' = connection_pools w ∧
      proxy_client w' = proxy_client w ∧
      objects w' = objects w) ∨
     ((0 < k)%nat ∧
      mp_client self' = proxy_client w' ∧
      connection_identifier (proxy_client w') = target w ∧
      (objects w ≤ client_id (proxy_client w') < objects w')%nat ∧
      connection_pools w' !! target w = Some (connection_pool (proxy_client w')) ∧
      delete (target w) (connection_pools w')
        = delete (target w)
            (delete (connection_identifier (mp_client self)) (connection_pools w)) ∧
      (connection_identifier (mp_client self) = target w →
       (objects w ≤ connection_pool (proxy_client w') < objects w')%nat))).
Proof.
  intros Hkey. unfold __call__. rewrite Hkey.
  destruct (ProxyFacts._call_total respond (max_call_count + extra) self 1 a w)
    as [[[s w1] r] E]; [unfold max_call_count; lia..|].
  rewrite E.
  pose proof (ProxyFacts._call_dispatch respond _ _ _ _ _ _ _ _ E) as (_ & Hc & _).
  apply _call_effects in E as (_ & k & Hk & Hin & Hev & Hcr & Hcase);
    [|unfold max_call_count; lia].
  exists (set_method key s w1), r, k, s.
  cbn [set_method trace method_cache connection_pools proxy_client objects].
  rewrite Hc.
  split_and!; [done|unfold max_call_count in *; lia|done..].
Qed.

(** X2: a guarded call whose first attempt returns gives that value to
    the caller and leaves the registry, the proxy's client and the
    method cache as they were; the one call on the guard's client is
    all that happened. *)
Theorem call_answered_at_once extra key a w self v :
  method_cache w !! key = Some self →
  respond (invocations w) (mp_client self) (method_attr self) a = Returns v →
  ∃ w',
    __call__ Args respond (S extra) key a w = Some (w', Returns v) ∧
    connection_pools w' = connection_pools w ∧
    proxy_client w' = proxy_client w ∧
    method_cache w' = method_cache w ∧
    trace w' = (trace w ++
                [Invoked (client_id (mp_client self)) (method_attr self)])%list.
Proof.
  intros Hkey Hv. unfold __call__. rewrite Hkey.
  rewrite (ProxyFacts._call_returns respond extra self 1 a w v Hv).
  eexists; split; [reflexivity|].
  cbn [set_method invoked connection_pools proxy_client method_cache trace].
  split_and!; [done|done|by apply insert_id|done].
Qed.

(** X3: a guarded call that succeeds only after one or two connection
    errors gives [None] to its caller, whatever the successful attempt
    returned, after one eviction and recreation per lost attempt. *)
Theorem recovered_call_gives_none
    extra key a w self k (lost : nat → string) v :
  method_cache w !! key = Some self →
  (0 < k < max_call_count)%nat →
  (∀ j c, (j < k)%nat →
     respond (invocations w + j)%nat c (method_attr self) a
       = Raises (ConnectionError (lost j))) →
  (∀ c, respond (invocations w + k)%nat c (method_attr self) a = Returns v) →
  ∃ w',
    __call__ Args respond (max_call_count + extra) key a w
      = Some (w', Returns VNone) ∧
    occurrences is_eviction (trace w')
      = (occurrences is_eviction (trace w) + k)%nat ∧
    occurrences is_creation (trace w')
      = (occurrences is_creation (trace w) + k)%nat.
Proof.
  intros Hkey Hk Hconn Hv. unfold __call__. rewrite Hkey.
  assert (H1 : ∀ c, respond (invocations w) c (method_attr self) a
                      = Raises (ConnectionError (lost 0%nat))).
  { intros c. rewrite <- (Nat.add_0_r (invocations w)). apply Hconn; lia. }
  destruct k as [|[|[|k]]]; [lia| | |unfold max_call_count in Hk; lia].
  - rewrite Nat.add_1_r in Hv.
    destruct (ProxyFacts._call_retry respond (S (S extra)) self 1 a w _ (H1 _)
                ltac:(done)) as (p1 & ps1 & o1 & E1).
    cbn zeta in E1.
    change (max_call_count + extra)%nat with (S (S (S extra))).
    rewrite E1.
    rewrite (ProxyFacts._call_returns respond _ _ _ a _ v) by apply Hv.
    eexists; split; [reflexivity|].
    cbn [set_method invoked trace]. rewrite !ProxyFacts.occurrences_app. cbn. lia.
  - assert (H2 : ∀ c, respond (S (invocations w)) c (method_attr self) a
                        = Raises (ConnectionError (lost 1%nat))).
    { intros c. rewrite <- (Nat.add_1_r (invocations w)). apply Hconn; lia. }
    replace (invocations w + 2)%nat with (S (S (invocations w))) in Hv by lia.
    destruct (ProxyFacts.recovered_value_dropped respond extra key a w self
                _ _ v Hkey H1 H2 Hv) as (w' & Hrun & Hev & Hcr).
    unfold __call__ in Hrun. rewrite Hkey in Hrun.
    exists w'. by rewrite Hrun.
Qed.

(** X4: the first call through a name that has no guard yet goes to the
    client that is current at that moment: the guard that member access
    builds holds the proxy's client, and the call comes back. *)
Theorem first_call_uses_current_client extra attr a w :
  callable attr = true →
  method_cache w !! attr = None →
  ∃ w' r rest,
    __call__ Args respond (max_call_count + extra) attr a
      (snd (__getattr__ callable attribute attr w)) = Some (w', r) ∧
    trace w' = (trace w ++ Invoked (client_id (proxy_client w)) attr :: rest)%list.
Proof.
  intros Hc Hnew. unfold __getattr__. rewrite Hc, Hnew. cbn [snd].
  unfold __call__. cbn [set_method method_cache]. rewrite lookup_insert_eq.
  match goal with
  | |- context [_call _ _ ?f ?s0 1 a ?w0] =>
      destruct (ProxyFacts._call_total respond f s0 1 a w0)
        as [[[s w1] r] E]; [unfold max_call_count; lia..|]
  end.
  rewrite E. apply ProxyFacts._call_dispatch in E as ([rest Ht] & _).
  cbn in Ht. by eexists _, _, rest.
Qed.

(** X5: member access never replaces a guard: when the name is cached,
    the access changes nothing, so a guard keeps the client it holds;
    when it is not, the guard built holds the proxy's current client;
    either way a second access finds the guard and changes nothing. *)
Theorem getattr_keeps_cached_guard attr w :
  callable attr = true →
  let w1 := snd (__getattr__ callable attribute attr w) in
  fst (__getattr__ callable attribute attr w) = Method attr ∧
  method_cache w1 !! attr
    = Some (default {| mp_client := proxy_client w; method_attr := attr |}
              (method_cache w !! attr)) ∧
  (∀ other, other ≠ attr → method_cache w1 !! other = method_cache w !! other) ∧
  (is_Some (method_cache w !! attr) → w1 = w) ∧
  __getattr__ callable attribute attr w1 = (Method attr, w1).
Proof.
  intros Hc. cbv zeta. unfold __getattr__. rewrite Hc.
  destruct (method_cache w !! attr) as [g|] eqn:Hg; cbn [fst snd default from_option id].
  - rewrite Hg. split_and!; done.
  - cbn [set_method method_cache]. rewrite lookup_insert_eq.
    split_and!; [done|done| |by intros [??]|done].
    intros other Hne. by rewrite lookup_insert_ne.
Qed.

(** The invariant of the reachable worlds: every cached guard calls
    the method it is cached under, and the proxy has been given one
    client more than has been evicted. *)
Lemma reachable_invariant w :
  reachable Args respond callable attribute w →
  (∀ key g, method_cache w !! key = Some g → method_attr g = key) ∧
  occurrences is_creation (trace w) = S (occurrences is_eviction (trace w)).
Proof.
  induction 1 as [pools fresh i|w attr Hw [IHkey IHtr]|w fuel key a w' r Hw [IHkey IHtr] Hrun].
  - unfold init.
    match goal with
    | |- context [create_client ?w0] =>
        destruct (ProxyFacts.create_client_spec w0) as (p & ps & o & ->)
    end.
    cbn. split; [by intros ?? ?|done].
  - unfold __getattr__. destruct (callable attr); [|done].
    destruct (method_cache w !! attr) eqn:Hg; [done|]. cbn. split; [|done].
    intros key g. destruct (decide (attr = key)) as [->|Hne].
    + rewrite lookup_insert_eq. by intros [= <-].
    + rewrite lookup_insert_ne by done. apply IHkey.
  - revert Hrun. unfold __call__.
    destruct (method_cache w !! key) as [self|] eqn:Hself; [|done].
    destruct (_call Args respond fuel self 1 a w) as [[[s w1] r1]|] eqn:E; [|done].
    intros [= <- <-].
    pose proof (ProxyFacts._call_dispatch respond _ _ _ _ _ _ _ _ E)
      as (_ & Hc & Ha & _).
    apply _call_counts in E as (k & _ & _ & _ & Hev & Hcr);
      [|unfold max_call_count; lia].
    cbn [set_method method_cache trace]. split.
    + intros key' g. destruct (decide (key = key')) as [->|Hne].
      * rewrite lookup_insert_eq. intros [= <-]. rewrite Ha. by apply IHkey.
      * rewrite lookup_insert_ne, Hc by done. apply IHkey.
    + lia.
Qed.

(** X6: in every world a proxy can reach by member accesses and guarded
    calls, each cached guard calls the method of the name it is cached
    under. *)
Theorem cached_guard_calls_its_own_method w key g :
  reachable Args respond callable attribute w →
  method_cache w !! key = Some g →
  method_attr g = key.
Proof. intros Hw. by apply reachable_invariant. Qed.

(** X7: in every world a proxy can reach, all the evictions have been
    followed by a recreation: the clients created are one more than
    the identifiers evicted. *)
Theorem every_eviction_is_followed_by_a_client w :
  reachable Args respond callable attribute w →
  occurrences is_creation (trace w) = S (occurrences is_eviction (trace w)).
Proof. intros Hw. by apply reachable_invariant. Qed.

(** X20: when the first attempt of a guarded call meets a connection
    error, the call comes back with the guard and the proxy on the same
    client, and that client is an object made during the call (so not
    the client that failed, if that one was made before the call)
    under the proxy's identifier; the registry holds its pool under
    this identifier and has lost the identifier of the client that
    failed; and the pool is a new object too when the failed client
    carried the proxy's identifier. *)
Theorem recovery_keeps_guard_in_step extra key a w self msg :
  method_cache w !! key = Some self →
  respond (invocations w) (mp_client self) (method_attr self) a
    = Raises (ConnectionError msg) →
  ∃ w' r self',
    __call__ Args respond (max_call_count + extra) key a w = Some (w', r) ∧
    method_cache w' !! key = Some self' ∧
    mp_client self' = proxy_client w' ∧
    (occurrences is_creation (trace w) < occurrences is_creation (trace w'))%nat ∧
    connection_identifier (proxy_client w') = target w ∧
    (objects w ≤ client_id (proxy_client w') < objects w')%nat ∧
    ((client_id (mp_client self) < objects w)%nat →
     proxy_client w' ≠ mp_client self) ∧
    connection_pools w' !! target w = Some (connection_pool (proxy_client w')) ∧
    delete (target w) (connection_pools w')
      = delete (target w)
          (delete (connection_identifier (mp_client self)) (connection_pools w)) ∧
    (connection_identifier (mp_client self) = target w →
     (objects w ≤ connection_pool (proxy_client w') < objects w')%nat).
Proof.
  intros Hkey Hlost. unfold __call__. rewrite Hkey.
  destruct (ProxyFacts._call_total respond (max_call_count + extra) self 1 a w)
    as [[[s w1] r] E]; [unfold max_call_count; lia..|].
  rewrite E.
  assert (Hk0 : ∀ k, occurrences is_creation (trace w1)
                     = (occurrences is_creation (trace w) + k)%nat →
                (k = 0%nat ∧ s = self ∧ connection_pools w1 = connection_pools w ∧
                 proxy_client w1 = proxy_client w ∧ objects w1 = objects w) → False).
  { intros k Hcr (-> & _).
    change (max_call_count + extra)%nat with (S (S (S extra))) in E.
    destruct (ProxyFacts._call_recover respond (S (S extra)) self 1 a w msg Hlost
                ltac:(done)) as (c & w3 & _ & _ & _ & _ & _ & _ & Htr & _ & _ & _ & _ & E1).
    rewrite E1 in E.
    destruct (_call Args respond (S (S extra)) _ _ a (set_proxy_client c w3))
      as [[[s2 w2] r2]|] eqn:E2; [|done].
    assert (w2 = w1) as -> by (destruct r2; by inversion E).
    apply _call_counts in E2 as (k2 & _ & _ & _ & _ & Hcr2);
      [|unfold max_call_count; lia].
    cbn [set_proxy_client trace] in Hcr2.
    rewrite Htr, ProxyFacts.occurrences_app in Hcr2. cbn in Hcr2. lia. }
  apply _call_effects in E as (_ & k & _ & _ & _ & Hcr & Hcase);
    [|unfold max_call_count; lia].
  destruct Hcase as [Hnone|(Hpos & Hs & Hi & Hb & Hp & Hd & Hf)];
    [by destruct (Hk0 k Hcr Hnone)|].
  exists (set_method key s w1), r, s.
  cbn [set_method method_cache proxy_client trace connection_pools objects].
  split_and!; try done; try lia; try (by rewrite lookup_insert_eq).
  intros Hold Heq. rewrite Heq in Hb. lia.
Qed.

End Calls.

Import Sample.

Lemma recovery_keeps_guard_in_step_witness :
  ∃ w' r self',
    __call__ (list value) (scripted [lost; pong]) (max_call_count + 0) "set"
      [VStr "k"; VStr "v"] proxy_in_use = Some (w', r) ∧
    method_cache w' !! "set" = Some self' ∧
    mp_client self' = proxy_client w' ∧
    (occurrences is_creation (trace proxy_in_use)
     < occurrences is_creation (trace w'))%nat ∧
    connection_identifier (proxy_client w') = target proxy_in_use ∧
    (objects proxy_in_use ≤ client_id (proxy_client w') < objects w')%nat ∧
    ((client_id (mp_client (guard_of "set")) < objects proxy_in_use)%nat →
     proxy_client w' ≠ mp_client (guard_of "set")) ∧
    connection_pools w' !! target proxy_in_use
      = Some (connection_pool (proxy_client w')) ∧
    delete (target proxy_in_use) (connection_pools w')
      = delete (target proxy_in_use)
          (delete (connection_identifier (mp_client (guard_of "set")))
             (connection_pools proxy_in_use)) ∧
    (connection_identifier (mp_client (guard_of "set")) = target proxy_in_use →
     (objects proxy_in_use ≤ connection_pool (proxy_client w') < objects w')%nat).
Proof.
  apply (recovery_keeps_guard_in_step (scripted [lost; pong]) 0 "set"
           [VStr "k"; VStr "v"] proxy_in_use (guard_of "set") "connection lost");
    reflexivity.
Defined.

Lemma proxy_in_use_reachable {Args} (respond : nat → client → string → Args → outcome) :
  reachable Args respond (fun _ => true) (fun _ _ => VNone) proxy_in_use.
Proof. unfold proxy_in_use. do 3 apply reach_getattr. apply reach_init. Defined.

Lemma attempts_bounded_witness :
  ∃ w' r k self',
    __call__ (list value) (scripted [lost; pong]) (max_call_count + 0) "get"
      [VStr "k"] proxy_in_use = Some (w', r) ∧
    (k < max_call_count)%nat ∧
    occurrences is_invocation (trace w')
      = (occurrences is_invocation (trace proxy_in_use) + S k)%nat ∧
    occurrences is_eviction (trace w')
      = (occurrences is_eviction (trace proxy_in_use) + k)%nat ∧
    occurrences is_creation (trace w')
      = (occurrences is_creation (trace proxy_in_use) + k)%nat ∧
    method_cache w' = <["get" := self']> (method_cache proxy_in_use) ∧
    ((k = 0%nat ∧ self' = guard_of "get" ∧
      connection_pools w' = connection_pools proxy_in_use ∧
      proxy_client w' = proxy_client proxy_in_use ∧
      objects w' = objects proxy_in_use) ∨
     ((0 < k)%nat ∧
      mp_client self' = proxy_client w' ∧
      connection_identifier (proxy_client w') = target proxy_in_use ∧
      (objects proxy_in_use ≤ client_id (proxy_client w') < objects w')%nat ∧
      connection_pools w' !! target proxy_in_use
        = Some (connection_pool (proxy_client w')) ∧
      delete (target proxy_in_use) (connection_pools w')
        = delete (target proxy_in_use)
            (delete (connection_identifier (mp_client (guard_of "get")))
               (connection_pools proxy_in_use)) ∧
      (connection_identifier (mp_client (guard_of "get")) = target proxy_in_use →
       (objects proxy_in_use ≤ connection_pool (proxy_client w') < objects w')%nat))).
Proof.
  apply (attempts_bounded (scripted [lost; pong]) 0 "get" [VStr "k"]
           proxy_in_use (guard_of "get")).
  reflexivity.
Defined.

Lemma call_answered_at_once_witness :
  ∃ w',
    __call__ (list value) (scripted [pong]) 1 "ping" [] proxy_in_use
      = Some (w', Returns (VStr "PONG")) ∧
    connection_pools w' = connection_pools proxy_in_use ∧
    proxy_client w' = proxy_client proxy_in_use ∧
    method_cache w' = method_cache proxy_in_use ∧
    trace w' = (trace proxy_in_use ++
                [Invoked (client_id (mp_client (guard_of "ping")))
                   (method_attr (guard_of "ping"))])%list.
Proof.
  apply (call_answered_at_once (scripted [pong]) 0 "ping" [] proxy_in_use
           (guard_of "ping") (VStr "PONG")); reflexivity.
Defined.

Lemma recovered_call_gives_none_witness :
  ∃ w',
    __call__ (list value) (scripted [lost; pong]) (max_call_count + 0) "ping" []
      proxy_in_use = Some (w', Returns VNone) ∧
    occurrences is_eviction (trace w')
      = (occurrences is_eviction (trace proxy_in_use) + 1)%nat ∧
    occurrences is_creation (trace w')
      = (occurrences is_creation (trace proxy_in_use) + 1)%nat.
Proof.
  apply (recovered_call_gives_none (scripted [lost; pong]) 0 "ping" []
           proxy_in_use (guard_of "ping") 1 (fun _ => "connection lost")
           (VStr "PONG")).
  - reflexivity.
  - unfold max_call_count; lia.
  - intros j c Hj. assert (j = 0%nat) as -> by lia. reflexivity.
  - intros c. reflexivity.
Defined.

Lemma first_call_uses_current_client_witness :
  ∃ w' r rest,
    __call__ (list value) (scripted [pong]) (max_call_count + 0) "incr" [VStr "k"]
      (snd (__getattr__ (fun _ => true) (fun _ _ => VNone) "incr" proxy_in_use))
      = Some (w', r) ∧
    trace w' = (trace proxy_in_use ++
                Invoked (client_id (proxy_client proxy_in_use)) "incr" :: rest)%list.
Proof.
  apply (first_call_uses_current_client (scripted [pong]) (fun _ => true)
           (fun _ _ => VNone) 0 "incr" [VStr "k"] proxy_in_use); reflexivity.
Defined.

Lemma getattr_keeps_cached_guard_witness :
  let w1 := snd (__getattr__ (fun _ => true) (fun _ _ => VNone) "get" proxy_in_use) in
  fst (__getattr__ (fun _ => true) (fun _ _ => VNone) "get" proxy_in_use)
    = Method "get" ∧
  method_cache w1 !! "get"
    = Some (default {| mp_client := proxy_client proxy_in_use; method_attr := "get" |}
              (method_cache proxy_in_use !! "get")) ∧
  (∀ other, other ≠ "get" →
     method_cache w1 !! other = method_cache proxy_in_use !! other) ∧
  (is_Some (method_cache proxy_in_use !! "get") → w1 = proxy_in_use) ∧
  __getattr__ (fun _ => true) (fun _ _ => VNone) "get" w1 = (Method "get", w1).
Proof.
  apply (getattr_keeps_cached_guard (fun _ => true) (fun _ _ => VNone) "get"
           proxy_in_use).
  reflexivity.
Defined.

Lemma cached_guard_calls_its_own_method_witness :
  method_attr (guard_of "set") = "set".
Proof.
  apply (cached_guard_calls_its_own_method (scripted [pong]) (fun _ => true)
           (fun _ _ => VNone) proxy_in_use "set" (guard_of "set")).
  - apply proxy_in_use_reachable.
  - reflexivity.
Defined.

Lemma every_eviction_is_followed_by_a_client_witness :
  occurrences is_creation (trace proxy_in_use)
  = S (occurrences is_eviction (trace proxy_in_use)).
Proof.
  apply (every_eviction_is_followed_by_a_client (scripted [pong]) (fun _ => true)
           (fun _ _ => VNone) proxy_in_use).
  apply proxy_in_use_reachable.
Defined.

End ProxyMore.

(** * Further properties of the address parser *)

Module ParserMore.
Import Urllib Parser Rule.

(** ** Strings *)

Lemma rpartition_none c s :
  Py.rpartition c s = None ↔ Py.count c s = 0%nat.
Proof.
  induction s as [|a s IH]; cbn; [done|].
  destruct (Py.rpartition c s) as [[h t]|].
  - destruct (Ascii.eqb a c); [done|]. split; [done|]. intros H.
    by apply IH in H.
  - destruct (Ascii.eqb a c); [done|]. split; [intros _; by apply IH|done].
Qed.

Lemma rpartition_app c h t :
  Py.count c t = 0%nat →
  Py.rpartition c (h ++ String c t) = Some (h, t).
Proof.
  intros Ht. apply rpartition_none in Ht.
  induction h as [|a h IH].
  - change ("" ++ String c t) with (String c t). cbn.
    by rewrite Ht, Ascii.eqb_refl.
  - change (String a h ++ String c t) with (String a (h ++ String c t)). cbn.
    by rewrite IH.
Qed.

Lemma rpartition_some c s h t :
  Py.rpartition c s = Some (h, t) → s = h ++ String c t ∧ Py.count c t = 0%nat.
Proof.
  revert h. induction s as [|a s IH]; intros h; cbn; [done|].
  destruct (Py.rpartition c s) as [[h' t']|] eqn:E.
  - intros [= <- <-]. destruct (IH h' eq_refl) as [-> Hc]. done.
  - destruct (Ascii.eqb_spec a c) as [->|]; [|done].
    intros [= <- <-]. split; [done|]. by apply rpartition_none.
Qed.

Lemma contains_char c s :
  Py.contains (String c EmptyString) s = negb (Nat.eqb (Py.count c s) 0).
Proof.
  induction s as [|a s IH]; cbn; [done|].
  rewrite IH.
  destruct (ascii_dec c a) as [->|Hne].
  - rewrite Ascii.eqb_refl. by destruct s.
  - assert (Ascii.eqb a c = false) as -> by (apply Ascii.eqb_neq; congruence).
    done.
Qed.

Lemma prefix_cons c p a s :
  String.prefix (String c p) (String a s) = (Ascii.eqb c a && String.prefix p s)%bool.
Proof.
  cbn [String.prefix]. destruct (ascii_dec c a) as [->|Hne].
  - by rewrite Ascii.eqb_refl.
  - apply Ascii.eqb_neq in Hne. by rewrite Hne.
Qed.

Lemma contains_scheme_colon s :
  Py.contains "://" s = true → Py.contains ":" s = true.
Proof.
  induction s as [|a s IH]; [done|].
  cbn [Py.contains]. rewrite !prefix_cons.
  intros [[Ha _]%andb_true_iff|H]%orb_true_iff.
  - rewrite Ha. by destruct s.
  - rewrite (IH H). by rewrite orb_true_r.
Qed.

(** ** Servers without a scheme *)

Lemma socket_path_overwritten (kwargs : dict) host port path :
  <["unix_socket_path" := path]>
    (<["port" := port]> (<["host" := host]>
       (<["unix_socket_path" := VStr ""]> kwargs)))
  = <["unix_socket_path" := path]>
      (<["port" := port]> (<["host" := host]> kwargs)).
Proof.
  apply map_eq. intros k. rewrite !lookup_insert.
  repeat case_decide; done.
Qed.

Lemma plain_form_cases server db kwargs :
  plain_form server db (<["unix_socket_path" := VStr ""]> kwargs) =
  match Py.rpartition ":" server with
  | Some (host, port) =>
      match Py.int_of_string port with
      | Some n =>
          Ok (<["db" := db]> (<["unix_socket_path" := VNone]>
                (<["port" := VInt n]> (<["host" := VStr host]> kwargs))))
      | None =>
          Raise (ImproperlyConfigured
                   (repr port ++ " from " ++ server ++ " must be an integer"))
      end
  | None =>
      Ok (<["db" := db]> (<["unix_socket_path" := VStr server]>
            (<["port" := VNone]> (<["host" := VNone]> kwargs))))
  end.
Proof.
  unfold plain_form.
  change ":" with (String ":"%char EmptyString) at 1.
  rewrite contains_char.
  destruct (Py.rpartition ":" server) as [[host port]|] eqn:E.
  - assert (Py.count ":" server ≠ 0%nat) as Hc.
    { intros Hc. apply rpartition_none in Hc. congruence. }
    apply Nat.eqb_neq in Hc. rewrite Hc. cbn [negb Py.int].
    destruct (Py.int_of_string port); cbn [rbind]; [|done].
    by rewrite socket_path_overwritten.
  - apply rpartition_none in E. rewrite E. cbn [Nat.eqb negb rbind].
    by rewrite socket_path_overwritten.
Qed.

(** X8: a server written [host:port] is split at its last colon: the
    text before it, colons and all, is the host, the text after it
    must be an integer and is the port; the socket path is unset, the
    database is the [db] argument as given, and no warning is
    emitted.  When the text after the last colon is no integer the
    parse raises [ImproperlyConfigured], naming that text and the
    server. *)
Theorem host_port_split_at_last_colon host port db kwargs ws :
  Py.count ":" port = 0%nat →
  Py.contains "://" (host ++ ":" ++ port) = false →
  parse_connection_kwargs (host ++ ":" ++ port) db kwargs ws =
  (ws,
   match Py.int_of_string port with
   | Some n =>
       Ok (<["db" := db]> (<["unix_socket_path" := VNone]>
             (<["port" := VInt n]> (<["host" := VStr host]> kwargs))))
   | None =>
       Raise (ImproperlyConfigured
                (repr port ++ " from " ++ (host ++ ":" ++ port)
                 ++ " must be an integer"))
   end).
Proof.
  intros Hport Hplain. unfold parse_connection_kwargs. rewrite Hplain.
  unfold lift. rewrite plain_form_cases.
  change (":" ++ port) with (String ":"%char port).
  by rewrite (rpartition_app _ _ _ Hport).
Qed.

(** X9: a server without a scheme is parsed without a warning and
    without renaming anything: every caller option other than [host],
    [port], [unix_socket_path] and [db] is passed on as given (also
    [charset] and [errors]), the database is the [db] argument as
    given, and either host and port are set and the socket path is
    not, or the whole server is the socket path and host and port are
    unset. *)
Theorem plain_server_parameters server db kwargs ws :
  Py.contains "://" server = false →
  ∃ r,
    parse_connection_kwargs server db kwargs ws = (ws, r) ∧
    ∀ p, r = Ok p →
      (∀ k, k ≠ "host" → k ≠ "port" → k ≠ "unix_socket_path" → k ≠ "db" →
            p !! k = kwargs !! k) ∧
      p !! "db" = Some db ∧
      ((∃ host n, p !! "host" = Some (VStr host) ∧ p !! "port" = Some (VInt n) ∧
                  p !! "unix_socket_path" = Some VNone) ∨
       (p !! "host" = Some VNone ∧ p !! "port" = Some VNone ∧
        p !! "unix_socket_path" = Some (VStr server))).
Proof.
  intros Hplain. unfold parse_connection_kwargs. rewrite Hplain.
  unfold lift. eexists; split; [reflexivity|].
  rewrite plain_form_cases. intros p.
  destruct (Py.rpartition ":" server) as [[host port]|].
  - destruct (Py.int_of_string port) as [n|]; [|done].
    intros [= <-]. split_and!.
    + intros k ????. by rewrite !lookup_insert_ne.
    + by rewrite lookup_insert_eq.
    + left. exists host, n. by simplify_map_eq.
  - intros [= <-]. split_and!.
    + intros k ????. by rewrite !lookup_insert_ne.
    + by rewrite lookup_insert_eq.
    + right. by simplify_map_eq.
Qed.

Lemma urlparse_raises s e : urlparse s = Raise e → conversion_error e.
Proof.
  unfold urlparse.
  destruct (match Py.partition ":" s with Some _ => _ | None => _ end) as [sch url1].
  destruct (match url1 with EmptyString => _ | String _ _ => _ end) as [loc url2].
  destruct (xorb _ _); [by intros [= <-]|].
  destruct (match Py.partition "#" url2 with Some _ => _ | None => _ end) as [url3 frag].
  by destruct (match Py.partition "?" url3 with Some _ => _ | None => _ end).
Qed.

Lemma split_query_raises s e : split_query s = Raise e → conversion_error e.
Proof.
  unfold split_query.
  destruct (urlparse s) as [url|e'] eqn:E; cbn [rbind];
    [|intros [= <-]; by eapply urlparse_raises].
  destruct (_ && _)%bool; [|done].
  destruct (Py.partition "?" (path url)) as [[h qs]|]; [|by intros [= <-]].
  destruct (urlparse (Py.drop_last _ _)) as [url'|e'] eqn:E'; cbn [rbind];
    [discriminate|].
  intros [= <-]. by eapply urlparse_raises.
Qed.

(** X10: the exception of a failed parse tells the form of the server:
    a server with a scheme fails with the [ValueError] or [TypeError]
    of a malformed URL, port or database, never with
    [ImproperlyConfigured]; a server without a scheme fails only with
    [ImproperlyConfigured], and only because the text after its last
    colon is no integer. *)
Theorem parse_failure_by_form server db kwargs ws e :
  snd (parse_connection_kwargs server db kwargs ws) = Raise e →
  if Py.contains "://" server then conversion_error e
  else ∃ host port,
         Py.rpartition ":" server = Some (host, port) ∧
         Py.int_of_string port = None ∧
         e = ImproperlyConfigured
               (repr port ++ " from " ++ server ++ " must be an integer").
Proof.
  unfold parse_connection_kwargs.
  destruct (Py.contains "://" server).
  - unfold bind at 1, lift at 1.
    destruct (split_query server) as [[url qs]|e'] eqn:E; cbn [fst snd].
    + unfold url_form, bind, lift.
      destruct (url_options url qs db) as [opts|e'] eqn:Eo.
      * destruct (ParserFacts.rename_deprecated_ok "charset" "encoding"
                    (deprecated "charset" "encoding")
                    (opts ∪ <["unix_socket_path":=VStr ""]> kwargs) ws)
          as (w1 & p1 & -> & _).
        destruct (ParserFacts.rename_deprecated_ok "errors" "encoding_errors"
                    (deprecated "errors" "encoding_errors") p1 w1)
          as (w2 & p2 & -> & _).
        done.
      * intros [= <-]. by eapply ParserFacts.url_options_raises.
    + intros [= <-]. by eapply split_query_raises.
  - unfold lift. cbn [snd]. rewrite plain_form_cases.
    destruct (Py.rpartition ":" server) as [[host port]|]; [|done].
    destruct (Py.int_of_string port) eqn:Ei; [done|].
    intros [= <-]. by exists host, port.
Qed.

(** ** Servers with a scheme *)

Lemma rename_deprecated_eq old new msg (kwargs : dict) ws :
  rename_deprecated old new msg kwargs ws =
  ((ws ++ match kwargs !! old with
          | Some _ => [DeprecationWarning msg]
          | None => []
          end)%list,
   Ok match kwargs !! old with
      | Some v => <[new := v]> (delete old kwargs)
      | None => kwargs
      end).
Proof.
  unfold rename_deprecated.
  destruct (kwargs !! old); cbn; [done|]. by rewrite app_nil_r.
Qed.

(** What the URL branch makes of the options of the URL merged over
    the caller's: everything but the two aliases and their targets is
    kept, the aliases are gone, each target holds its alias if there
    was one, and each alias met has added its warning. *)
Lemma url_form_inv url qs db (kwargs : dict) ws ws' p :
  url_form url qs db kwargs ws = (ws', Ok p) →
  ∃ opts, url_options url qs db = Ok opts ∧
    (∀ k, k ≠ "charset" → k ≠ "encoding" → k ≠ "errors" → k ≠ "encoding_errors" →
          p !! k = (opts ∪ kwargs) !! k) ∧
    p !! "charset" = None ∧
    p !! "errors" = None ∧
    p !! "encoding" = (opts ∪ kwargs) !! "charset" ∪ (opts ∪ kwargs) !! "encoding" ∧
    p !! "encoding_errors"
      = (opts ∪ kwargs) !! "errors" ∪ (opts ∪ kwargs) !! "encoding_errors" ∧
    ws' = (ws ++ match (opts ∪ kwargs) !! "charset" with
                 | Some _ => [DeprecationWarning
                                (deprecated "charset" "encoding")]
                 | None => []
                 end
              ++ match (opts ∪ kwargs) !! "errors" with
                 | Some _ => [DeprecationWarning
                                (deprecated "errors" "encoding_errors")]
                 | None => []
                 end)%list.
Proof.
  unfold url_form, bind, lift.
  destruct (url_options url qs db) as [opts|]; [|done].
  rewrite rename_deprecated_eq, rename_deprecated_eq.
  set (m := opts ∪ kwargs).
  intros [= <- <-]. exists opts. split; [done|].
  destruct (m !! "charset") as [c|] eqn:Hc;
    [rewrite lookup_insert_ne, lookup_delete_ne by done|];
    destruct (m !! "errors") as [e|] eqn:He;
    (split_and!; [intros k ????|..]);
    simplify_map_eq; rewrite <- ?app_assoc; try done;
    unfold m in *; rewrite ?Hc, ?He; try done;
    match goal with |- _ = _ ∪ ?x => by destruct x end.
Qed.

(** What [url_options] sets: the password always; for [unix] the
    socket path; otherwise host and port, and for [rediss] the
    connection class; everything else, [db] apart, is the query's. *)
Lemma url_options_inv url qs db opts :
  url_options url qs db = Ok opts →
  opts !! "password" = Some (password url) ∧
  (∀ k, k ≠ "password" → k ≠ "db" → k ≠ "host" → k ≠ "port" →
        k ≠ "unix_socket_path" → k ≠ "connection_class" →
        opts !! k = query_options qs !! k) ∧
  if String.eqb (scheme url) "unix" then
    opts !! "unix_socket_path" = Some (VStr (path url)) ∧
    opts !! "host" = query_options qs !! "host" ∧
    opts !! "port" = query_options qs !! "port"
  else
    opts !! "host" = Some (hostname url) ∧
    (∃ pv n, port url = Ok pv ∧ Py.int (Py.or pv (VInt 6379)) = Ok n ∧
             opts !! "port" = Some (VInt n)) ∧
    (String.eqb (scheme url) "rediss" = true →
     opts !! "connection_class" = Some SSLConnection).
Proof.
  unfold url_options. set (q := query_options qs).
  destruct (String.eqb (scheme url) "unix"); cbn [rbind].
  - destruct (Py.int _); cbn [rbind]; [|done]. intros [= <-].
    split_and!; [|intros k ??????|..]; by simplify_map_eq.
  - destruct (port url) as [pv|] eqn:Hp; cbn [rbind]; [|done].
    destruct (Py.int (Py.or pv (VInt 6379))) as [n|] eqn:Hn; cbn [rbind]; [|done].
    destruct (_ && _)%bool;
      [destruct (Py.int (VStr _)) as [d|[]]|]; cbn [rbind]; try done;
      destruct (String.eqb (scheme url) "rediss");
      destruct (Py.int (default _ _)); cbn [rbind]; try done;
      intros [= <-];
      (split_and!; [|intros k ??????|..|try done; intros _]);
      try (exists pv, n; rewrite Hn; split_and!; [done..|]);
      by simplify_map_eq.
Qed.

Lemma merged_lookup url qs db opts (kwargs : dict) k :
  url_options url qs db = Ok opts →
  k ≠ "password" → k ≠ "db" → k ≠ "host" → k ≠ "port" →
  k ≠ "unix_socket_path" → k ≠ "connection_class" →
  (opts ∪ <["unix_socket_path" := VStr ""]> kwargs) !! k
  = query_options qs !! k ∪ kwargs !! k.
Proof.
  intros Ho ??????. destruct (url_options_inv _ _ _ _ Ho) as (_ & Hq & _).
  by rewrite lookup_union, Hq, lookup_insert_ne.
Qed.

Lemma parse_url_inv server db kwargs ws ws' p url qs :
  Py.contains "://" server = true →
  split_query server = Ok (url, qs) →
  parse_connection_kwargs server db kwargs ws = (ws', Ok p) →
  url_form url qs db (<["unix_socket_path" := VStr ""]> kwargs) ws = (ws', Ok p).
Proof.
  intros Hurl Hsplit. by rewrite (ParserFacts.parse_url_form _ _ _ _ _ _ Hurl Hsplit).
Qed.

(** X11: in the parameters of a URL whose scheme is not [unix], host,
    port and password are those of the URL's network location, whatever
    the query string and the caller's options say under these names:
    the host as [urlparse] reads it, the password of the user
    information or [None], the port when it is given and not 0, and
    6379 when no port is given; under [rediss] the connection class is
    the TLS one. *)
Theorem tcp_url_parameters server db kwargs ws ws' p url qs :
  Py.contains "://" server = true →
  split_query server = Ok (url, qs) →
  parse_connection_kwargs server db kwargs ws = (ws', Ok p) →
  scheme url ≠ "unix" →
  p !! "host" = Some (hostname url) ∧
  p !! "password" = Some (password url) ∧
  (port url = Ok VNone → p !! "port" = Some (VInt 6379)) ∧
  (∀ n, port url = Ok (VInt n) → n ≠ 0 → p !! "port" = Some (VInt n)) ∧
  (scheme url = "rediss" → p !! "connection_class" = Some SSLConnection).
Proof.
  intros Hurl Hsplit Hparse Hu. apply String.eqb_neq in Hu.
  apply (parse_url_inv _ _ _ _ _ _ _ _ Hurl Hsplit) in Hparse.
  apply url_form_inv in Hparse as (opts & Ho & Hk & _).
  destruct (url_options_inv _ _ _ _ Ho) as (Hpw & _ & Hrest).
  rewrite Hu in Hrest. destruct Hrest as (Hh & (pv & n & Hp & Hn & Hpo) & Hssl).
  rewrite !Hk by done.
  rewrite (lookup_union_Some_l _ _ _ _ Hh), (lookup_union_Some_l _ _ _ _ Hpw),
    (lookup_union_Some_l _ _ _ _ Hpo).
  split_and!; [done|done| | |].
  - intros Hp'. rewrite Hp' in Hp. injection Hp as <-. cbn in Hn. congruence.
  - intros n' Hp' Hn'. rewrite Hp' in Hp. injection Hp as <-.
    unfold Py.or, Py.truthy in Hn. apply Z.eqb_neq in Hn'. rewrite Hn' in Hn.
    cbn in Hn. congruence.
  - intros Hs. apply String.eqb_eq in Hs.
    by rewrite (lookup_union_Some_l _ _ _ _ (Hssl Hs)).
Qed.

(** X12: in the parameters of a [unix] URL the socket path is the path
    of the URL and the password is that of its user information or
    [None], whatever the query string and the caller say; the URL sets
    no host and no port of its own: they are there only if the query
    string or, failing that, the caller gives them. *)
Theorem unix_url_parameters server db kwargs ws ws' p url qs :
  Py.contains "://" server = true →
  split_query server = Ok (url, qs) →
  parse_connection_kwargs server db kwargs ws = (ws', Ok p) →
  scheme url = "unix" →
  p !! "unix_socket_path" = Some (VStr (path url)) ∧
  p !! "password" = Some (password url) ∧
  p !! "host" = query_options qs !! "host" ∪ kwargs !! "host" ∧
  p !! "port" = query_options qs !! "port" ∪ kwargs !! "port".
Proof.
  intros Hurl Hsplit Hparse Hu. apply String.eqb_eq in Hu.
  apply (parse_url_inv _ _ _ _ _ _ _ _ Hurl Hsplit) in Hparse.
  apply url_form_inv in Hparse as (opts & Ho & Hk & _).
  destruct (url_options_inv _ _ _ _ Ho) as (Hpw & _ & Hrest).
  rewrite Hu in Hrest. destruct Hrest as (Hpath & Hh & Hpo).
  rewrite !Hk by done.
  rewrite (lookup_union_Some_l _ _ _ _ Hpath), (lookup_union_Some_l _ _ _ _ Hpw).
  by rewrite !lookup_union, Hh, Hpo, !lookup_insert_ne.
Qed.

(** X13: every other option of a URL parse (any name but the
    connection fields, [db] and the encoding names) has the first value
    the query string gives it and, when the query string does not
    name it, the value the caller gave: the query string wins. *)
Theorem query_option_beats_caller_option server db kwargs ws ws' p url qs k :
  Py.contains "://" server = true →
  split_query server = Ok (url, qs) →
  parse_connection_kwargs server db kwargs ws = (ws', Ok p) →
  k ∉ ["password"; "db"; "host"; "port"; "unix_socket_path"; "connection_class";
       "charset"; "encoding"; "errors"; "encoding_errors"] →
  p !! k = query_options qs !! k ∪ kwargs !! k.
Proof.
  intros Hurl Hsplit Hparse Hk.
  apply (parse_url_inv _ _ _ _ _ _ _ _ Hurl Hsplit) in Hparse.
  apply url_form_inv in Hparse as (opts & Ho & Hp & _).
  rewrite !not_elem_of_cons in Hk. destruct_and!.
  rewrite Hp by done. by eapply merged_lookup.
Qed.

(** X14: a URL parse never hands on the deprecated names: its
    parameters have no [charset] and no [errors]; [encoding] holds the
    [charset] given (by the query string or, failing that, the caller)
    and only without one the [encoding] given, and likewise
    [encoding_errors] for [errors]. *)
Theorem deprecated_aliases_renamed server db kwargs ws ws' p url qs :
  Py.contains "://" server = true →
  split_query server = Ok (url, qs) →
  parse_connection_kwargs server db kwargs ws = (ws', Ok p) →
  p !! "charset" = None ∧
  p !! "errors" = None ∧
  p !! "encoding"
    = (query_options qs !! "charset" ∪ kwargs !! "charset")
      ∪ (query_options qs !! "encoding" ∪ kwargs !! "encoding") ∧
  p !! "encoding_errors"
    = (query_options qs !! "errors" ∪ kwargs !! "errors")
      ∪ (query_options qs !! "encoding_errors" ∪ kwargs !! "encoding_errors").
Proof.
  intros Hurl Hsplit Hparse.
  apply (parse_url_inv _ _ _ _ _ _ _ _ Hurl Hsplit) in Hparse.
  apply url_form_inv in Hparse as (opts & Ho & _ & Hc & He & Hen & Her & _).
  rewrite Hen, Her.
  by rewrite !(merged_lookup _ _ _ _ _ _ Ho).
Qed.

(** X15: a successful URL parse adds to the warnings already emitted
    one deprecation warning for [charset] if the query string or the
    caller gave it, then one for [errors] if given, and nothing else;
    each says that the old name, in double quotes, is deprecated and
    that the new name, in double quotes, is to be used instead. *)
Theorem one_warning_per_alias server db kwargs ws ws' p url qs :
  Py.contains "://" server = true →
  split_query server = Ok (url, qs) →
  parse_connection_kwargs server db kwargs ws = (ws', Ok p) →
  ws' = (ws
         ++ match query_options qs !! "charset" ∪ kwargs !! "charset" with
            | Some _ => [DeprecationWarning
                           (deprecated "charset" "encoding")]
            | None => []
            end
         ++ match query_options qs !! "errors" ∪ kwargs !! "errors" with
            | Some _ => [DeprecationWarning
                           (deprecated "errors" "encoding_errors")]
            | None => []
            end)%list.
Proof.
  intros Hurl Hsplit Hparse.
  apply (parse_url_inv _ _ _ _ _ _ _ _ Hurl Hsplit) in Hparse.
  apply url_form_inv in Hparse as (opts & Ho & _ & _ & _ & _ & _ & ->).
  by rewrite !(merged_lookup _ _ _ _ _ _ Ho).
Qed.

(** ** Query strings, server lists and class paths *)

Lemma parse_qs_fold k (l : list (string * string)) (acc : gmap string (list string)) :
  fold_left
    (fun (parsed : gmap string (list string)) (nv : string * string) =>
       let (name, v) := nv in
       match parsed !! name with
       | Some vs => <[name := (vs ++ [v])%list]> parsed
       | None => <[name := [v]]> parsed
       end) l acc !! k
  = match acc !! k, snd <$> filter (fun nv : string * string => nv.1 = k) l with
    | Some vs, found => Some (vs ++ found)%list
    | None, [] => None
    | None, found => Some found
    end.
Proof.
  revert acc. induction l as [|[name v] l IH]; intros acc; cbn [fold_left].
  - cbn. destruct (acc !! k); [by rewrite app_nil_r|done].
  - rewrite IH. destruct (decide (name = k)) as [->|Hne].
    + rewrite filter_cons_True by done. cbn [fmap list_fmap snd].
      destruct (acc !! k) as [vs|]; rewrite lookup_insert_eq;
        [by rewrite <- app_assoc|done].
    + rewrite filter_cons_False by done.
      by destruct (acc !! name); rewrite lookup_insert_ne.
Qed.

(** X16: the option a query string gives to a name is the value of
    the first of its fields with that name; later fields with the
    same name are ignored. *)
Theorem first_query_value_wins qs k :
  query_options qs !! k
  = VStr <$> head (snd <$> filter (fun nv : string * string => nv.1 = k)
                                  (parse_qsl qs)).
Proof.
  unfold query_options, parse_qs. rewrite lookup_omap, parse_qs_fold, lookup_empty.
  by destruct (snd <$> filter _ _).
Qed.

(** X17: a location string without a comma is one server, the string
    itself (the empty string too). *)
Theorem get_servers_single (s : string) :
  Py.count "," s = 0%nat →
  get_servers (LString s) = Ok [s].
Proof.
  intros Hc. unfold get_servers, Py.split.
  pose proof (ParserFacts.split_fields_spec "," s) as H.
  destruct (Py.split_fields "," s) as [h t].
  destruct H as (Hlen & _ & Hjoin). rewrite Hc in Hlen.
  destruct t; [|done]. cbn in Hjoin. by rewrite Hjoin.
Qed.

(** X18: [import_class] reads a path as a module and, after its last
    dot, an attribute: it imports the module and returns the attribute;
    a module that cannot be imported and an attribute the module does
    not have are both reported as [ImproperlyConfigured], while any
    other exception of the import is passed on. *)
Theorem import_class_splits_at_last_dot import_module module_name class_name :
  Py.count "." class_name = 0%nat →
  Importer.import_class import_module (module_name ++ "." ++ class_name) =
  match import_module module_name with
  | Importer.Imported attributes =>
      match attributes !! class_name with
      | Some v => Ok v
      | None =>
          Raise (ImproperlyConfigured
                   ("Cannot import " ++ Importer.dquote ++ class_name
                    ++ Importer.dquote))
      end
  | Importer.ImportError =>
      Raise (ImproperlyConfigured
               ("Could not find module " ++ Importer.dquote ++ module_name
                ++ Importer.dquote))
  | Importer.ImportRaises e => Raise e
  end.
Proof.
  intros Hc. unfold Importer.import_class.
  change ("." ++ class_name) with (String "."%char class_name).
  by rewrite (rpartition_app _ _ _ Hc).
Qed.

(** X19: a path without a dot makes [import_class] raise the
    [ValueError] of the failed unpacking, not [ImproperlyConfigured],
    whatever the importer knows. *)
Theorem import_class_needs_a_dot import_module path :
  Py.count "." path = 0%nat →
  Importer.import_class import_module path
  = Raise (ValueError "not enough values to unpack").
Proof.
  intros Hc. unfold Importer.import_class.
  apply rpartition_none in Hc. by rewrite Hc.
Qed.

(** ** The theorems at work *)

Import SampleParse.

Lemma host_port_split_at_last_colon_witness :
  parse_connection_kwargs ("::1" ++ ":" ++ "6380") (VInt 2) ∅ [] =
  ([],
   match Py.int_of_string "6380" with
   | Some n =>
       Ok (<["db" := VInt 2]> (<["unix_socket_path" := VNone]>
             (<["port" := VInt n]> (<["host" := VStr "::1"]> ∅))))
   | None =>
       Raise (ImproperlyConfigured
                (repr "6380" ++ " from " ++ ("::1" ++ ":" ++ "6380")
                 ++ " must be an integer"))
   end).
Proof.
  apply (host_port_split_at_last_colon "::1" "6380" (VInt 2) ∅ []); reflexivity.
Defined.

Lemma plain_server_parameters_witness :
  ∃ r,
    parse_connection_kwargs "/tmp/redis.sock" (VInt 1) caller_options [] = ([], r) ∧
    ∀ p, r = Ok p →
      (∀ k, k ≠ "host" → k ≠ "port" → k ≠ "unix_socket_path" → k ≠ "db" →
            p !! k = caller_options !! k) ∧
      p !! "db" = Some (VInt 1) ∧
      ((∃ host n, p !! "host" = Some (VStr host) ∧ p !! "port" = Some (VInt n) ∧
                  p !! "unix_socket_path" = Some VNone) ∨
       (p !! "host" = Some VNone ∧ p !! "port" = Some VNone ∧
        p !! "unix_socket_path" = Some (VStr "/tmp/redis.sock"))).
Proof.
  apply (plain_server_parameters "/tmp/redis.sock" (VInt 1) caller_options []).
  reflexivity.
Defined.

Lemma parse_failure_by_form_witness :
  if Py.contains "://" "myhost:notaport"
  then conversion_error
         (ImproperlyConfigured "'notaport' from myhost:notaport must be an integer")
  else ∃ host port,
         Py.rpartition ":" "myhost:notaport" = Some (host, port) ∧
         Py.int_of_string port = None ∧
         ImproperlyConfigured "'notaport' from myhost:notaport must be an integer"
         = ImproperlyConfigured
             (repr port ++ " from " ++ "myhost:notaport" ++ " must be an integer").
Proof.
  apply (parse_failure_by_form "myhost:notaport" VNone ∅ []).
  vm_compute. reflexivity.
Defined.

Lemma tcp_url_parameters_witness :
  parameters_of tls_server VNone caller_options !! "host"
    = Some (hostname (url_of tls_server)) ∧
  parameters_of tls_server VNone caller_options !! "password"
    = Some (password (url_of tls_server)) ∧
  (port (url_of tls_server) = Ok VNone →
   parameters_of tls_server VNone caller_options !! "port" = Some (VInt 6379)) ∧
  (∀ n, port (url_of tls_server) = Ok (VInt n) → n ≠ 0 →
        parameters_of tls_server VNone caller_options !! "port" = Some (VInt n)) ∧
  (scheme (url_of tls_server) = "rediss" →
   parameters_of tls_server VNone caller_options !! "connection_class"
     = Some SSLConnection).
Proof.
  apply (tcp_url_parameters tls_server VNone caller_options []
           (warnings_of tls_server VNone caller_options)
           (parameters_of tls_server VNone caller_options)
           (url_of tls_server) (query (url_of tls_server)));
    [reflexivity | vm_compute; reflexivity | vm_compute; reflexivity |].
  vm_compute. discriminate.
Defined.

Lemma unix_url_parameters_witness :
  parameters_of unix_server VNone caller_options !! "unix_socket_path"
    = Some (VStr (path (url_of unix_server))) ∧
  parameters_of unix_server VNone caller_options !! "password"
    = Some (password (url_of unix_server)) ∧
  parameters_of unix_server VNone caller_options !! "host"
    = query_options (query (url_of unix_server)) !! "host"
      ∪ caller_options !! "host" ∧
  parameters_of unix_server VNone caller_options !! "port"
    = query_options (query (url_of unix_server)) !! "port"
      ∪ caller_options !! "port".
Proof.
  apply (unix_url_parameters unix_server VNone caller_options []
           (warnings_of unix_server VNone caller_options)
           (parameters_of unix_server VNone caller_options)
           (url_of unix_server) (query (url_of unix_server)));
    [reflexivity | vm_compute; reflexivity | vm_compute; reflexivity
    | vm_compute; reflexivity].
Defined.

Lemma query_option_beats_caller_option_witness :
  parameters_of tls_server VNone caller_options !! "socket_timeout"
  = query_options (query (url_of tls_server)) !! "socket_timeout"
    ∪ caller_options !! "socket_timeout".
Proof.
  apply (query_option_beats_caller_option tls_server VNone caller_options []
           (warnings_of tls_server VNone caller_options)
           (parameters_of tls_server VNone caller_options)
           (url_of tls_server) (query (url_of tls_server)) "socket_timeout");
    [reflexivity | vm_compute; reflexivity | vm_compute; reflexivity |].
  rewrite !not_elem_of_cons. split_and!; try discriminate. apply not_elem_of_nil.
Defined.

Lemma deprecated_aliases_renamed_witness :
  parameters_of tls_server VNone caller_options !! "charset" = None ∧
  parameters_of tls_server VNone caller_options !! "errors" = None ∧
  parameters_of tls_server VNone caller_options !! "encoding"
    = (query_options (query (url_of tls_server)) !! "charset"
       ∪ caller_options !! "charset")
      ∪ (query_options (query (url_of tls_server)) !! "encoding"
         ∪ caller_options !! "encoding") ∧
  parameters_of tls_server VNone caller_options !! "encoding_errors"
    = (query_options (query (url_of tls_server)) !! "errors"
       ∪ caller_options !! "errors")
      ∪ (query_options (query (url_of tls_server)) !! "encoding_errors"
         ∪ caller_options !! "encoding_errors").
Proof.
  apply (deprecated_aliases_renamed tls_server VNone caller_options []
           (warnings_of tls_server VNone caller_options)
           (parameters_of tls_server VNone caller_options)
           (url_of tls_server) (query (url_of tls_server)));
    [reflexivity | vm_compute; reflexivity | vm_compute; reflexivity].
Defined.

Lemma one_warning_per_alias_witness :
  warnings_of tls_server VNone caller_options =
  ([] ++ match query_options (query (url_of tls_server)) !! "charset"
               ∪ caller_options !! "charset" with
         | Some _ => [DeprecationWarning
                        (deprecated "charset" "encoding")]
         | None => []
         end
      ++ match query_options (query (url_of tls_server)) !! "errors"
               ∪ caller_options !! "errors" with
         | Some _ => [DeprecationWarning
                        (deprecated "errors" "encoding_errors")]
         | None => []
         end)%list.
Proof.
  apply (one_warning_per_alias tls_server VNone caller_options []
           (warnings_of tls_server VNone caller_options)
           (parameters_of tls_server VNone caller_options)
           (url_of tls_server) (query (url_of tls_server)));
    [reflexivity | vm_compute; reflexivity | vm_compute; reflexivity].
Defined.

Lemma get_servers_single_witness :
  get_servers (LString "redis://localhost:6379/0") = Ok ["redis://localhost:6379/0"].
Proof. apply (get_servers_single "redis://localhost:6379/0"). reflexivity. Defined.

Lemma import_class_splits_at_last_dot_witness :
  Importer.import_class one_module ("redis.connection" ++ "." ++ "SSLConnection") =
  match one_module "redis.connection" with
  | Importer.Imported attributes =>
      match attributes !! "SSLConnection" with
      | Some v => Ok v
      | None =>
          Raise (ImproperlyConfigured
                   ("Cannot import " ++ Importer.dquote ++ "SSLConnection"
                    ++ Importer.dquote))
      end
  | Importer.ImportError =>
      Raise (ImproperlyConfigured
               ("Could not find module " ++ Importer.dquote ++ "redis.connection"
                ++ Importer.dquote))
  | Importer.ImportRaises e => Raise e
  end.
Proof.
  apply (import_class_splits_at_last_dot one_module "redis.connection" "SSLConnection").
  reflexivity.
Defined.

Lemma import_class_needs_a_dot_witness :
  Importer.import_class one_module "SSLConnection"
  = Raise (ValueError "not enough values to unpack").
Proof. apply (import_class_needs_a_dot one_module "SSLConnection"). reflexivity. Defined.

(** The sample TLS address, parsed. *)
Example tls_server_parameters :
  parse_connection_kwargs tls_server VNone caller_options [] =
  ([DeprecationWarning (deprecated "charset" "encoding");
    DeprecationWarning (deprecated "errors" "encoding_errors")],
   Ok (<["host" := VStr "cache.example"]> (<["port" := VInt 6380]>
      (<["password" := VStr "pw"]> (<["db" := VInt 5]>
      (<["connection_class" := SSLConnection]>
      (<["unix_socket_path" := VStr ""]> (<["socket_timeout" := VStr "3"]>
      (<["encoding" := VStr "latin1"]> (<["encoding_errors" := VStr "strict"]>
      (<["retry" := VInt 1]> ∅))))))))))).
Proof. vm_compute. reflexivity. Qed.

End ParserMore.
